(** * QuickSideTool PDF backend: scratch-file lifecycle of [app.py]

    A shallow embedding of the request handlers, of the scratch path
    generator [create_temp_file], of the per-request cleanup blocks and of
    the background task [cleanup_temp_files], followed by the properties
    of the scratch-file lifecycle.

    Conventions.
    - Python [str] is [string]; only ASCII letters are case-mapped by
      [lower], which is all that a comparison with an ASCII literal such
      as ['.pdf'] can observe.  What is stated about the value of [lower]
      itself is stated for ASCII strings, on which it is [str.lower].
    - [datetime] values are integers counting microseconds, the resolution
      of [datetime] and [timedelta].  The wall clock is the naive local
      time that [datetime.now()] reads; while the background task sleeps
      it moves by the time slept and by the steps by which it is set
      (daylight-saving change, correction), which are inputs of the model.
    - A Python function that may raise is a computation in the monad
      [M S A := S -> Outcome A * S]; [try]/[except]/[finally] are
      combinators of that monad.
    - The external libraries (pikepdf, PyMuPDF, the Adobe service client,
      the operating system's random source) are fields of the record
      [Externals]; nothing is assumed about what they return. *)

From Stdlib Require Import ZArith NArith Ascii String List Lia Bool.
From stdpp Require Import base option list strings gmap pretty.

Local Open Scope Z_scope.

(** ** Python string operations *)

Module Py.

Definition lower_char (c : ascii) : ascii :=
  let n := N_of_ascii c in
  if ((65 <=? n) && (n <=? 90))%N then ascii_of_N (n + 32) else c.

(** [s.lower()] for an ASCII string [s]; characters outside ASCII are left
    as they are. *)
Fixpoint lower (s : string) : string :=
  match s with
  | EmptyString => EmptyString
  | String c s' => String (lower_char c) (lower s')
  end.

(** [s.isascii()] *)
Fixpoint isascii (s : string) : bool :=
  match s with
  | EmptyString => true
  | String c s' => (N_of_ascii c <? 128)%N && isascii s'
  end.

(** [s.startswith(p)] *)
Definition startswith (s p : string) : bool := String.prefix p s.

(** [s.endswith(suffix)]: the last [len(suffix)] characters are compared. *)
Definition endswith (s suffix : string) : bool :=
  let n := String.length s in
  let m := String.length suffix in
  if (m <=? n)%nat then String.eqb (substring (n - m) m s) suffix else false.

(** [sub in s] *)
Fixpoint contains (sub s : string) : bool :=
  String.prefix sub s ||
  match s with
  | EmptyString => false
  | String _ s' => contains sub s'
  end.

(** [s.replace(old, new)] for a non-empty [old]: scan from the left, and
    after a match skip the rest of the matched occurrence. *)
Fixpoint replace_from (old new : string) (skip : nat) (s : string) : string :=
  match s with
  | EmptyString => EmptyString
  | String c s' =>
      match skip with
      | S k => replace_from old new k s'
      | O =>
          if String.prefix old s
          then new +:+ replace_from old new (String.length old - 1) s'
          else String c (replace_from old new O s')
      end
  end.

Definition replace (s old new : string) : string := replace_from old new O s.

(** Truthiness of a [str]. *)
Definition truthy (s : string) : bool := negb (String.eqb s "").

(** [s.rfind(sub)]: the highest index at which [sub] occurs, or -1.  The
    scan keeps the last index seen so far. *)
Fixpoint rfind_from (sub s : string) (i found : Z) : Z :=
  match s with
  | EmptyString => if String.prefix sub s then i else found
  | String _ s' =>
      rfind_from sub s' (i + 1) (if String.prefix sub s then i else found)
  end.

Definition rfind (s sub : string) : Z := rfind_from sub s 0 (-1).

(** The slices [s[:i]], [s[i:]] and [s[i:j]] for indices that are not
    negative. *)
Definition slice_to (s : string) (i : Z) : string := substring 0 (Z.to_nat i) s.
Definition slice_from (s : string) (i : Z) : string :=
  substring (Z.to_nat i) (String.length s - Z.to_nat i) s.
Definition slice (s : string) (i j : Z) : string :=
  substring (Z.to_nat i) (Z.to_nat j - Z.to_nat i) s.

End Py.

(** ** Exceptions and the state-and-exception monad *)

(** The subclasses of [Exception] that the program meets.  A
    [BaseException] that is not an [Exception], such as the
    [asyncio.CancelledError] raised at an [await] when the task is
    cancelled, is not among them: an awaited call is followed when it
    returns or raises an [Exception], and that nothing but an
    [HTTPException] leaves a handler is stated for the handlers without
    [await]. *)
Inductive exn : Type :=
  | HTTPException (status_code : Z) (detail : string)
  | PasswordError (msg : string)        (* pikepdf.PasswordError, a PdfError *)
  | PdfError (msg : string)             (* pikepdf.PdfError *)
  | FileNotFoundError (path : string)
  | PermissionError (path : string)
  | IsADirectoryError (path : string)
  | UnboundLocalError (name : string)
  | OtherException (msg : string).      (* any other subclass of Exception *)

(** [str(e)] *)
Definition exn_str (e : exn) : string :=
  match e with
  | HTTPException s d => pretty s +:+ ": " +:+ d
  | PasswordError m | PdfError m | OtherException m => m
  | FileNotFoundError p => "[Errno 2] No such file or directory: '" +:+ p +:+ "'"
  | PermissionError p => "[Errno 13] Permission denied: '" +:+ p +:+ "'"
  | IsADirectoryError p => "[Errno 21] Is a directory: '" +:+ p +:+ "'"
  | UnboundLocalError n =>
      "cannot access local variable '" +:+ n
      +:+ "' where it is not associated with a value"
  end.

Inductive Outcome (A : Type) : Type :=
  | Ok (a : A)
  | Raise (e : exn).
Arguments Ok {A} a.
Arguments Raise {A} e.

Definition M (S A : Type) : Type := S -> Outcome A * S.

Definition ret {S A} (a : A) : M S A := fun s => (Ok a, s).
Definition raise {S A} (e : exn) : M S A := fun s => (Raise e, s).
Definition bind {S A B} (m : M S A) (k : A -> M S B) : M S B :=
  fun s => match m s with
           | (Ok a, s') => k a s'
           | (Raise e, s') => (Raise e, s')
           end.
Definition get {S} : M S S := fun s => (Ok s, s).
Definition modify {S} (f : S -> S) : M S unit := fun s => (Ok tt, f s).

(** [try: m  except <all modelled classes> as e: h e] *)
Definition try_except {S A} (m : M S A) (h : exn -> M S A) : M S A :=
  fun s => match m s with
           | (Ok a, s') => (Ok a, s')
           | (Raise e, s') => h e s'
           end.

(** [try: m  finally: fin].  The [finally] block runs on every exit of
    [m]; when it raises, its exception replaces the pending result. *)
Definition try_finally {S A} (m : M S A) (fin : M S unit) : M S A :=
  fun s => match m s with
           | (r, s') =>
               match fin s' with
               | (Ok _, s'') => (r, s'')
               | (Raise e, s'') => (Raise e, s'')
               end
           end.

Declare Scope py_scope.
Delimit Scope py_scope with py.
Notation "x <- m ;; k" := (bind m (fun x => k))
  (at level 100, m at next level, right associativity) : py_scope.
Notation "m ;; k" := (bind m (fun _ => k))
  (at level 100, right associativity) : py_scope.

(** [for x in xs: body x] *)
Fixpoint for_each {S A} (xs : list A) (body : A -> M S unit) : M S unit :=
  match xs with
  | [] => ret tt
  | x :: xs' => (body x ;; for_each xs' body)%py
  end.

(** ** The process environment: scratch directory, clock, random source *)

Inductive DirState : Type := DirAvailable | DirMissing | DirNotWritable.

#[global] Instance DirState_eq_dec : EqDecision DirState.
Proof. solve_decision. Defined.

(** A directory entry.  [locked] stands for every reason why the operating
    system refuses to delete or overwrite it (immutable attribute, sharing
    violation). *)
Record Entry : Type := mkEntry {
  is_regular : bool;
  ctime : Z;
  data : string;
  locked : bool;
}.

Inductive LogRecord : Type :=
  | INFO (msg : string)
  | ERROR (msg : string).

Record World : Type := mkWorld {
  files : gmap string Entry;    (* absolute path -> entry *)
  scratch_dir : DirState;       (* state of the directory TEMP_DIR *)
  now : Z;                      (* wall clock (naive local time), microseconds *)
  draws : nat;                  (* calls of os.urandom(16) made so far *)
  log : list LogRecord;
  issued : list string;         (* ghost: paths returned by create_temp_file *)
}.

Definition set_files (f : gmap string Entry -> gmap string Entry) (w : World) : World :=
  mkWorld (f (files w)) (scratch_dir w) (now w) (draws w) (log w) (issued w).
Definition set_now (t : Z) (w : World) : World :=
  mkWorld (files w) (scratch_dir w) t (draws w) (log w) (issued w).
Definition set_draws (n : nat) (w : World) : World :=
  mkWorld (files w) (scratch_dir w) (now w) n (log w) (issued w).
Definition add_log (r : LogRecord) (w : World) : World :=
  mkWorld (files w) (scratch_dir w) (now w) (draws w) (log w ++ [r]) (issued w).
Definition add_issued (p : string) (w : World) : World :=
  mkWorld (files w) (scratch_dir w) (now w) (draws w) (log w) (issued w ++ [p]).

Definition logger_info (msg : string) : M World unit := modify (add_log (INFO msg)).
Definition logger_error (msg : string) : M World unit := modify (add_log (ERROR msg)).

Definition datetime_now : M World Z := fun w => (Ok (now w), w).

(** [timedelta(minutes=n)] and a number of seconds, in microseconds. *)
Definition timedelta_minutes (n : Z) : Z := n * 60 * 1000000.
Definition seconds (n : Z) : Z := n * 1000000.

(** [await asyncio.sleep(delay)]: the task is resumed [delay] seconds
    later.  The wall clock has then moved by [delay] seconds and by
    [step], the sum of the steps by which it was set while the task slept
    (zero when it was left alone, minus one hour across the end of
    daylight-saving time). *)
Definition asyncio_sleep (delay : Z) (step : Z) : M World unit :=
  fun w => (Ok tt, set_now (now w + seconds delay + step) w).

(** *** [os] and [os.path] *)

Module os.

(** [posixpath.join(a, b)] *)
Definition path_join (a b : string) : string :=
  if Py.startswith b "/" then b
  else if negb (Py.truthy a) || Py.endswith a "/" then a +:+ b
  else a +:+ "/" +:+ b.

Definition path_exists (path : string) (w : World) : bool :=
  match scratch_dir w with
  | DirMissing => false
  | _ => bool_decide (is_Some (files w !! path))
  end.

Definition path_isfile (path : string) (w : World) : bool :=
  match scratch_dir w with
  | DirMissing => false
  | _ => match files w !! path with
         | Some e => is_regular e
         | None => false
         end
  end.

Definition path_getctime (path : string) : M World Z :=
  fun w =>
    match scratch_dir w with
    | DirMissing => (Raise (FileNotFoundError path), w)
    | _ => match files w !! path with
           | Some e => (Ok (ctime e), w)
           | None => (Raise (FileNotFoundError path), w)
           end
    end.

Definition remove (path : string) : M World unit :=
  fun w =>
    match scratch_dir w with
    | DirMissing => (Raise (FileNotFoundError path), w)
    | st =>
        match files w !! path with
        | None => (Raise (FileNotFoundError path), w)
        | Some e =>
            if negb (is_regular e) then (Raise (IsADirectoryError path), w)
            else if locked e then (Raise (PermissionError path), w)
            else match st with
                 | DirNotWritable => (Raise (PermissionError path), w)
                 | _ => (Ok tt, set_files (delete path) w)
                 end
        end
    end.

(** [a] is the name of an entry located directly in directory [d] when
    [path_join d a] is its path and [a] has no separator. *)
Fixpoint strip_prefix (pre s : string) : option string :=
  match pre with
  | EmptyString => Some s
  | String c pre' =>
      match s with
      | EmptyString => None
      | String c' s' => if Ascii.eqb c c' then strip_prefix pre' s' else None
      end
  end.

Definition dir_prefix (d : string) : string :=
  if negb (Py.truthy d) || Py.endswith d "/" then d else d +:+ "/".

Definition child_name (d path : string) : option string :=
  match strip_prefix (dir_prefix d) path with
  | Some a => if Py.truthy a && negb (Py.contains "/" a) then Some a else None
  | None => None
  end.

(** [os.listdir(d)] for the scratch directory [d]. *)
Definition listdir (d : string) : M World (list string) :=
  fun w =>
    match scratch_dir w with
    | DirMissing => (Raise (FileNotFoundError d), w)
    | _ => (Ok (omap (fun kv => child_name d (fst kv)) (map_to_list (files w))), w)
    end.

(** [posixpath.splitext(p)]: the extension starts at the last dot of the
    last path component, unless only dots precede it there. *)
Fixpoint leading_dots_end (p : string) (fuel : nat) (filenameIndex : Z) : bool :=
  match fuel with
  | O => false
  | S fuel' =>
      if negb (String.eqb (Py.slice p filenameIndex (filenameIndex + 1)) ".")
      then true
      else leading_dots_end p fuel' (filenameIndex + 1)
  end.

Definition path_splitext (p : string) : string * string :=
  let sepIndex := Py.rfind p "/" in
  let dotIndex := Py.rfind p "." in
  if (dotIndex >? sepIndex)
     && leading_dots_end p (Z.to_nat (dotIndex - (sepIndex + 1))) (sepIndex + 1)
  then (Py.slice_to p dotIndex, Py.slice_from p dotIndex)
  else (p, Py.slice_to p 0).

End os.

(** [with open(path, mode) as f: f.write(bytes)]: creates or truncates
    the file; its inode change time becomes the current time. *)
Definition write_file (path : string) (bytes : string) : M World unit :=
  fun w =>
    match scratch_dir w with
    | DirMissing => (Raise (FileNotFoundError path), w)
    | st =>
        match files w !! path with
        | Some e =>
            if negb (is_regular e) then (Raise (IsADirectoryError path), w)
            else if locked e then (Raise (PermissionError path), w)
            else (Ok tt, set_files (insert path (mkEntry true (now w) bytes false)) w)
        | None =>
            match st with
            | DirNotWritable => (Raise (PermissionError path), w)
            | _ => (Ok tt, set_files (insert path (mkEntry true (now w) bytes false)) w)
            end
        end
    end.

(** What a library that is handed [path] reads from it. *)
Definition read_file (path : string) : M World string :=
  fun w =>
    match scratch_dir w with
    | DirMissing => (Raise (FileNotFoundError path), w)
    | _ => match files w !! path with
           | Some e => if is_regular e then (Ok (data e), w)
                       else (Raise (IsADirectoryError path), w)
           | None => (Raise (FileNotFoundError path), w)
           end
    end.

(** *** [uuid] *)

Module uuid.

(** [UUID(bytes=b, version=4).int] for the 16 bytes [b] read as a
    big-endian integer [r]. *)
Definition uuid4_int (r : N) : N :=
  let i0 := (r mod 2 ^ 128)%N in
  let i1 := N.ldiff i0 (N.shiftl 0xc000 48) in
  let i2 := N.lor i1 (N.shiftl 0x8000 48) in
  let i3 := N.ldiff i2 (N.shiftl 0xf000 64) in
  N.lor i3 (N.shiftl 4 76).

Definition hex_char (d : N) : ascii :=
  match d with
  | 0 => "0" | 1 => "1" | 2 => "2" | 3 => "3" | 4 => "4" | 5 => "5"
  | 6 => "6" | 7 => "7" | 8 => "8" | 9 => "9" | 10 => "a" | 11 => "b"
  | 12 => "c" | 13 => "d" | 14 => "e" | _ => "f"
  end%N%char.

(** The [k] low hexadecimal digits of [n], most significant first. *)
Fixpoint hex_fixed (k : nat) (n : N) : string :=
  match k with
  | O => EmptyString
  | S k' => String (hex_char ((n / 16 ^ N.of_nat k') mod 16)%N) (hex_fixed k' n)
  end.

(** [str(u)]: the 32 digits of ['%032x' % u.int] grouped 8-4-4-4-12. *)
Definition str (u : N) : string :=
  hex_fixed 8 (u / 16 ^ 24)%N +:+ "-" +:+
  hex_fixed 4 (u / 16 ^ 20)%N +:+ "-" +:+
  hex_fixed 4 (u / 16 ^ 16)%N +:+ "-" +:+
  hex_fixed 4 (u / 16 ^ 12)%N +:+ "-" +:+
  hex_fixed 12 u.

End uuid.

(** ** External collaborators *)

(** What the Adobe service client did with a call: the bytes it wrote to
    the output path, if any, and the boolean it returned. *)
Record AdobeResult : Type := mkAdobeResult {
  written : option string;
  success : bool;
}.

Record Externals : Type := mkExternals {
  (** [os.urandom(16)], as a big-endian integer, at the n-th call *)
  os_urandom16 : nat -> N;
  (** pikepdf *)
  Pdf : Type;
  pikepdf_open : string -> string -> Outcome Pdf;   (* file bytes, password *)
  is_encrypted : Pdf -> bool;
  pikepdf_save : Pdf -> option string -> Outcome string;  (* encryption password *)
  (** PyMuPDF *)
  Document : Type;
  Link : Type;
  fitz_open : string -> Outcome Document;
  fitz_len : Document -> nat;
  get_links : Document -> nat -> Outcome (list Link);
  delete_link : Document -> nat -> Link -> Outcome Document;
  fitz_save : Document -> Outcome string;
  (** adobe_service; the argument is what the input path holds *)
  convert_pdf_to_word : option string -> Outcome AdobeResult;
  convert_pdf_to_excel : option string -> Outcome AdobeResult;
  compress_pdf : option string -> string -> Outcome AdobeResult;
  optimize_pdf_for_web : option string -> Outcome AdobeResult;
  extract_text_with_ocr : option string -> Outcome string;
}.

Definition lift_outcome {S A} (r : Outcome A) : M S A := fun s => (r, s).

(** ** Configuration *)

Definition MAX_FILE_SIZE : Z := 50 * 1024 * 1024.
Definition CLEANUP_INTERVAL : Z := 600.

Section App.

(** [TEMP_DIR = tempfile.mkdtemp()], fixed at import time. *)
Variable TEMP_DIR : string.
Variable ext : Externals.

(** ** Utility functions *)

Definition validate_file_size (file_size : Z) : bool := file_size <=? MAX_FILE_SIZE.

Definition uuid_uuid4 : M World N :=
  fun w => (Ok (uuid.uuid4_int (os_urandom16 ext (draws w))), set_draws (S (draws w)) w).

Definition create_temp_file (extension : string) : M World string :=
  (unique_id <- (u <- uuid_uuid4 ;; ret (uuid.str u)) ;;
   let path := os.path_join TEMP_DIR (unique_id +:+ extension) in
   modify (add_issued path) ;;
   ret path)%py.

Record UploadFile : Type := mkUploadFile {
  filename : string;
  size : Z;
  file : string;      (* the bytes of the upload *)
}.

Definition validate_pdf_file (f : UploadFile) : bool :=
  if negb (Py.endswith (Py.lower (filename f)) ".pdf") then false else true.

Definition get_file_extension (filename : string) : string :=
  Py.lower (snd (os.path_splitext filename)).

Definition validate_image_file (f : UploadFile) : bool :=
  let allowed_extensions := [".jpg"; ".jpeg"; ".png"; ".gif"; ".bmp"; ".webp"] in
  bool_decide (get_file_extension (filename f) ∈ allowed_extensions).

Definition validate_word_file (f : UploadFile) : bool :=
  let allowed_extensions := [".docx"; ".doc"] in
  bool_decide (get_file_extension (filename f) ∈ allowed_extensions).

(** ** File cleanup task *)

Definition path_exists (path : string) : M World bool :=
  fun w => (Ok (os.path_exists path w), w).
Definition path_isfile (path : string) : M World bool :=
  fun w => (Ok (os.path_isfile path w), w).

(** The body of [for filename in os.listdir(TEMP_DIR)]. *)
Definition cleanup_entry (current_time : Z) (filename : string) : M World unit :=
  (let filepath := os.path_join TEMP_DIR filename in
   isfile <- path_isfile filepath ;;
   if isfile : bool then
     file_time <- os.path_getctime filepath ;;
     if current_time - file_time >? timedelta_minutes 10 then
       os.remove filepath ;;
       logger_info ("Cleaned up temporary file: " +:+ filename)
     else ret tt
   else ret tt)%py.

(** The body of the [try] of one turn of the loop. *)
Definition cleanup_pass : M World unit :=
  (current_time <- datetime_now ;;
   names <- os.listdir TEMP_DIR ;;
   for_each names (cleanup_entry current_time))%py.

(** One turn of [while True]: the guarded pass, then the sleep, during
    which the wall clock is set by [step]. *)
Definition cleanup_turn (step : Z) : M World unit :=
  (try_except cleanup_pass
     (fun e => logger_error ("Error during cleanup: " +:+ exn_str e)) ;;
   asyncio_sleep CLEANUP_INTERVAL step)%py.

(** [cleanup_temp_files], observed after one turn of its loop for each
    element of [steps], the steps of the wall clock during the successive
    sleeps: either the loop is still running, in the given state, or an
    exception has left it.  The task is followed as long as it is not
    cancelled, which is how the process ends it at shutdown. *)
Inductive LoopState : Type :=
  | Running (w : World)
  | Exited (e : exn) (w : World).

Fixpoint cleanup_temp_files (steps : list Z) (w : World) : LoopState :=
  match steps with
  | [] => Running w
  | step :: steps' =>
      match cleanup_turn step w with
      | (Ok _, w') => cleanup_temp_files steps' w'
      | (Raise e, w') => Exited e w'
      end
  end.

(** ** Request handlers *)

(** The local variables of a handler that its [finally] block reads.  A
    name that was never assigned is [None]; reading it raises
    [UnboundLocalError]. *)
Record Frame : Type := mkFrame {
  world : World;
  input_path : option string;
  output_path : option string;
}.

Definition lift {A} (m : M World A) : M Frame A :=
  fun f => match m (world f) with
           | (r, w') => (r, mkFrame w' (input_path f) (output_path f))
           end.

(** [input_path = m] and [output_path = m]: the value is also returned. *)
Definition assign_input_path (m : M World string) : M Frame string :=
  (p <- lift m ;;
   modify (fun f => mkFrame (world f) (Some p) (output_path f)) ;;
   ret p)%py.
Definition assign_output_path (m : M World string) : M Frame string :=
  (p <- lift m ;;
   modify (fun f => mkFrame (world f) (input_path f) (Some p)) ;;
   ret p)%py.

Definition local_input_path : M Frame string :=
  fun f => match input_path f with
           | Some p => (Ok p, f)
           | None => (Raise (UnboundLocalError "input_path"), f)
           end.
Definition local_output_path : M Frame string :=
  fun f => match output_path f with
           | Some p => (Ok p, f)
           | None => (Raise (UnboundLocalError "output_path"), f)
           end.

(** Runs a handler body in a fresh frame. *)
Definition in_frame {A} (m : M Frame A) : M World A :=
  fun w => match m (mkFrame w None None) with
           | (r, f) => (r, world f)
           end.

(** The [if os.path.exists(path): try: os.remove(path) except: pass] of the
    cleanup blocks. *)
Definition release (path : string) : M World unit :=
  (present <- path_exists path ;;
   if present : bool then try_except (os.remove path) (fun _ => ret tt)
   else ret tt)%py.

(** The [finally] block shared by all handlers:
    [for path in [input_path, output_path]: ...].  The list display reads
    both variables before the loop starts. *)
Definition cleanup_block : M Frame unit :=
  (paths <- (p1 <- local_input_path ;; p2 <- local_output_path ;; ret [p1; p2]) ;;
   for_each paths (fun path => lift (release path)))%py.

Record FileResponse : Type := mkFileResponse {
  path : string;
  response_filename : string;
  media_type : string;
}.

Definition invalid_file_type {S A} : M S A :=
  raise (HTTPException 400 "Invalid file type. Only PDF files are accepted.").
Definition file_too_large {S A} : M S A :=
  raise (HTTPException 400
           ("File too large. Maximum size is "
            +:+ pretty (MAX_FILE_SIZE / (1024 * 1024)) +:+ "MB.")).

(** [with open(input_path, "wb") as buffer: shutil.copyfileobj(file.file, buffer)] *)
Definition save_upload (input_path : string) (f : UploadFile) : M Frame unit :=
  lift (write_file input_path (file f)).

(** What a collaborator finds at [path]. *)
Definition peek (path : string) : M World (option string) :=
  fun w => match read_file path w with
           | (Ok d, _) => (Ok (Some d), w)
           | (Raise _, _) => (Ok None, w)
           end.

(** A call [await adobe_service.op(input_path, output_path, ...)]. *)
Definition adobe_call (op : option string -> Outcome AdobeResult)
    (input_path output_path : string) : M Frame bool :=
  lift (input <- peek input_path ;;
        r <- lift_outcome (op input) ;;
        match written r with
        | Some d => write_file output_path d
        | None => ret tt
        end ;;
        ret (success r))%py.

(** [except HTTPException: raise] followed by
    [except Exception as e: logger.error(...); raise HTTPException(500, ...)] *)
Definition reraise_or_500 {A} (log_prefix detail_prefix : string) (e : exn)
    : M Frame A :=
  match e with
  | HTTPException _ _ => raise e
  | _ => (lift (logger_error (log_prefix +:+ exn_str e)) ;;
          raise (HTTPException 500 (detail_prefix +:+ exn_str e)))%py
  end.

Definition unlock_pdf_legacy (f : UploadFile) (password : string)
    : M World FileResponse :=
  if negb (validate_pdf_file f) then invalid_file_type
  else if negb (validate_file_size (size f)) then file_too_large
  else in_frame (try_finally
    (try_except
       (input_path <- assign_input_path (create_temp_file ".pdf") ;;
        output_path <- assign_output_path (create_temp_file ".pdf") ;;
        save_upload input_path f ;;
        bytes <- lift (read_file input_path) ;;
        pdf <- lift_outcome (pikepdf_open ext bytes password) ;;
        saved <- lift_outcome (pikepdf_save ext pdf None) ;;
        lift (write_file output_path saved) ;;
        let output_filename := "unlocked_" +:+ filename f in
        lift (logger_info ("Successfully unlocked " +:+ filename f)) ;;
        ret (mkFileResponse output_path output_filename "application/pdf"))
       (fun e =>
          match e with
          | PasswordError _ =>
              raise (HTTPException 400 "Incorrect password for this PDF.")
          | PdfError _ =>
              if Py.contains "not encrypted" (Py.lower (exn_str e))
              then raise (HTTPException 400 "This PDF is not encrypted.")
              else raise (HTTPException 400 ("PDF error: " +:+ exn_str e))
          | _ =>
              lift (logger_error ("Error unlocking PDF: " +:+ exn_str e)) ;;
              raise (HTTPException 500 ("Failed to unlock PDF: " +:+ exn_str e))
          end))
    cleanup_block)%py.

Definition lock_pdf_legacy (f : UploadFile) (password : string)
    : M World FileResponse :=
  if negb (validate_pdf_file f) then invalid_file_type
  else if negb (validate_file_size (size f)) then file_too_large
  else in_frame (try_finally
    (try_except
       (input_path <- assign_input_path (create_temp_file ".pdf") ;;
        output_path <- assign_output_path (create_temp_file ".pdf") ;;
        save_upload input_path f ;;
        (* Check if PDF is already encrypted *)
        try_except
          (bytes <- lift (read_file input_path) ;;
           pdf <- lift_outcome (pikepdf_open ext bytes "") ;;
           if is_encrypted ext pdf
           then raise (HTTPException 400 "PDF is already encrypted.")
           else ret tt)
          (fun e =>
             match e with
             | PasswordError _ =>
                 raise (HTTPException 400 "PDF is already encrypted.")
             | _ => raise e
             end) ;;
        (* Lock PDF using pikepdf *)
        bytes <- lift (read_file input_path) ;;
        pdf <- lift_outcome (pikepdf_open ext bytes "") ;;
        saved <- lift_outcome (pikepdf_save ext pdf (Some password)) ;;
        lift (write_file output_path saved) ;;
        let output_filename := "locked_" +:+ filename f in
        lift (logger_info ("Successfully locked " +:+ filename f)) ;;
        ret (mkFileResponse output_path output_filename "application/pdf"))
       (reraise_or_500 "Error locking PDF: " "Failed to lock PDF: "))
    cleanup_block)%py.

(** [for link in links: page.delete_link(link)] on page [page_num]. *)
Fixpoint delete_links (doc : Document ext) (page_num : nat)
    (links : list (Link ext)) : Outcome (Document ext) :=
  match links with
  | [] => Ok doc
  | link :: links' =>
      match delete_link ext doc page_num link with
      | Ok doc' => delete_links doc' page_num links'
      | Raise e => Raise e
      end
  end.

(** [for page_num in range(len(doc)): ...] *)
Fixpoint strip_pages (doc : Document ext) (page_nums : list nat)
    : Outcome (Document ext) :=
  match page_nums with
  | [] => Ok doc
  | page_num :: rest =>
      match get_links ext doc page_num with
      | Ok links =>
          match delete_links doc page_num links with
          | Ok doc' => strip_pages doc' rest
          | Raise e => Raise e
          end
      | Raise e => Raise e
      end
  end.

Definition remove_pdf_links_legacy (f : UploadFile) : M World FileResponse :=
  if negb (validate_pdf_file f) then invalid_file_type
  else if negb (validate_file_size (size f)) then file_too_large
  else in_frame (try_finally
    (try_except
       (input_path <- assign_input_path (create_temp_file ".pdf") ;;
        output_path <- assign_output_path (create_temp_file ".pdf") ;;
        save_upload input_path f ;;
        bytes <- lift (read_file input_path) ;;
        doc <- lift_outcome (fitz_open ext bytes) ;;
        doc <- lift_outcome (strip_pages doc (seq 0 (fitz_len ext doc))) ;;
        saved <- lift_outcome (fitz_save ext doc) ;;
        lift (write_file output_path saved) ;;
        let output_filename := "links_removed_" +:+ filename f in
        lift (logger_info ("Successfully removed links from " +:+ filename f)) ;;
        ret (mkFileResponse output_path output_filename "application/pdf"))
       (fun e =>
          lift (logger_error ("Error removing PDF links: " +:+ exn_str e)) ;;
          raise (HTTPException 500 ("Failed to remove links: " +:+ exn_str e))))
    cleanup_block)%py.

(** [name = file.filename.replace('.pdf', suffix)], then
    [if not name.endswith(suffix): name += suffix]. *)
Definition converted_filename (f : UploadFile) (suffix : string) : string :=
  let output_filename := Py.replace (filename f) ".pdf" suffix in
  if negb (Py.endswith output_filename suffix)
  then output_filename +:+ suffix else output_filename.

Definition adobe_convert_pdf_to_word (f : UploadFile) : M World FileResponse :=
  if negb (validate_pdf_file f) then invalid_file_type
  else if negb (validate_file_size (size f)) then file_too_large
  else in_frame (try_finally
    (try_except
       (input_path <- assign_input_path (create_temp_file ".pdf") ;;
        output_path <- assign_output_path (create_temp_file ".docx") ;;
        save_upload input_path f ;;
        success <- adobe_call (convert_pdf_to_word ext) input_path output_path ;;
        if success : bool then
          let output_filename := converted_filename f ".docx" in
          lift (logger_info ("Successfully converted " +:+ filename f
                             +:+ " to Word using Adobe")) ;;
          ret (mkFileResponse output_path output_filename
                 "application/vnd.openxmlformats-officedocument.wordprocessingml.document")
        else raise (HTTPException 500 "Adobe conversion failed. Please try again."))
       (reraise_or_500 "Error converting PDF to Word with Adobe: "
                       "Conversion failed: "))
    cleanup_block)%py.

Definition adobe_convert_pdf_to_excel (f : UploadFile) : M World FileResponse :=
  if negb (validate_pdf_file f) then invalid_file_type
  else if negb (validate_file_size (size f)) then file_too_large
  else in_frame (try_finally
    (try_except
       (input_path <- assign_input_path (create_temp_file ".pdf") ;;
        output_path <- assign_output_path (create_temp_file ".xlsx") ;;
        save_upload input_path f ;;
        success <- adobe_call (convert_pdf_to_excel ext) input_path output_path ;;
        if success : bool then
          let output_filename := converted_filename f ".xlsx" in
          lift (logger_info ("Successfully converted " +:+ filename f
                             +:+ " to Excel using Adobe")) ;;
          ret (mkFileResponse output_path output_filename
                 "application/vnd.openxmlformats-officedocument.spreadsheetml.sheet")
        else raise (HTTPException 500 "Adobe conversion failed. Please try again."))
       (reraise_or_500 "Error converting PDF to Excel with Adobe: "
                       "Conversion failed: "))
    cleanup_block)%py.

Definition compression_levels : list string := ["low"; "medium"; "high"].

Definition adobe_compress_pdf (f : UploadFile) (compression_level : string)
    : M World FileResponse :=
  if negb (validate_pdf_file f) then invalid_file_type
  else if negb (validate_file_size (size f)) then file_too_large
  else if negb (bool_decide (compression_level ∈ compression_levels))
  then raise (HTTPException 400
                "Invalid compression level. Use: low, medium, or high.")
  else in_frame (try_finally
    (try_except
       (input_path <- assign_input_path (create_temp_file ".pdf") ;;
        output_path <- assign_output_path (create_temp_file ".pdf") ;;
        save_upload input_path f ;;
        success <- adobe_call (fun i => compress_pdf ext i compression_level)
                     input_path output_path ;;
        if success : bool then
          let output_filename := "compressed_" +:+ filename f in
          lift (logger_info ("Successfully compressed " +:+ filename f
                             +:+ " using Adobe")) ;;
          ret (mkFileResponse output_path output_filename "application/pdf")
        else raise (HTTPException 500 "Adobe compression failed. Please try again."))
       (reraise_or_500 "Error compressing PDF with Adobe: " "Compression failed: "))
    cleanup_block)%py.

Definition adobe_optimize_pdf (f : UploadFile) : M World FileResponse :=
  if negb (validate_pdf_file f) then invalid_file_type
  else if negb (validate_file_size (size f)) then file_too_large
  else in_frame (try_finally
    (try_except
       (input_path <- assign_input_path (create_temp_file ".pdf") ;;
        output_path <- assign_output_path (create_temp_file ".pdf") ;;
        save_upload input_path f ;;
        success <- adobe_call (optimize_pdf_for_web ext) input_path output_path ;;
        if success : bool then
          let output_filename := "optimized_" +:+ filename f in
          lift (logger_info ("Successfully optimized " +:+ filename f
                             +:+ " using Adobe")) ;;
          ret (mkFileResponse output_path output_filename "application/pdf")
        else raise (HTTPException 500 "Adobe optimization failed. Please try again."))
       (reraise_or_500 "Error optimizing PDF with Adobe: " "Optimization failed: "))
    cleanup_block)%py.

Definition adobe_extract_text (f : UploadFile) : M World FileResponse :=
  if negb (validate_pdf_file f) then invalid_file_type
  else if negb (validate_file_size (size f)) then file_too_large
  else in_frame (try_finally
    (try_except
       (input_path <- assign_input_path (create_temp_file ".pdf") ;;
        save_upload input_path f ;;
        extracted_text <- lift (input <- peek input_path ;;
                                lift_outcome (extract_text_with_ocr ext input)) ;;
        if Py.truthy extracted_text then
          let output_filename := converted_filename f ".txt" in
          output_path <- assign_output_path (create_temp_file ".txt") ;;
          lift (write_file output_path extracted_text) ;;
          lift (logger_info ("Successfully extracted text from " +:+ filename f
                             +:+ " using Adobe OCR")) ;;
          ret (mkFileResponse output_path output_filename "text/plain")
        else raise (HTTPException 500
                      "Adobe text extraction failed. Please try again."))
       (reraise_or_500 "Error extracting text with Adobe: "
                       "Text extraction failed: "))
    cleanup_block)%py.

(** *** The PDF endpoints as one family *)

Inductive Endpoint : Type :=
  | UnlockPdf | LockPdf | RemovePdfLinks
  | AdobePdfToWord | AdobePdfToExcel | AdobeCompressPdf | AdobeOptimizePdf
  | AdobeExtractText.

(** The user-supplied data of a request: the upload and the form fields. *)
Record Request : Type := mkRequest {
  upload : UploadFile;
  password : string;
  compression_level : string;
}.

Definition handle (ep : Endpoint) (r : Request) : M World FileResponse :=
  match ep with
  | UnlockPdf => unlock_pdf_legacy (upload r) (password r)
  | LockPdf => lock_pdf_legacy (upload r) (password r)
  | RemovePdfLinks => remove_pdf_links_legacy (upload r)
  | AdobePdfToWord => adobe_convert_pdf_to_word (upload r)
  | AdobePdfToExcel => adobe_convert_pdf_to_excel (upload r)
  | AdobeCompressPdf => adobe_compress_pdf (upload r) (compression_level r)
  | AdobeOptimizePdf => adobe_optimize_pdf (upload r)
  | AdobeExtractText => adobe_extract_text (upload r)
  end.

(** The server sends the body of a [FileResponse] after the handler has
    returned it: it opens [path] in the state the handler left. *)
Definition response_body (resp : FileResponse) (w : World) : option string :=
  match read_file (path resp) w with
  | (Ok d, _) => Some d
  | (Raise _, _) => None
  end.

End App.

(** ** Vocabulary of the properties *)

(** A regular file whose age at time [t] strictly exceeds ten minutes. *)
Definition reclaimable (t : Z) (e : Entry) : bool :=
  is_regular e && (t - ctime e >? timedelta_minutes 10).

(** The value of a hexadecimal digit. *)
Definition hex_val (c : ascii) : N :=
  match c with
  | "0" => 0 | "1" => 1 | "2" => 2 | "3" => 3 | "4" => 4 | "5" => 5
  | "6" => 6 | "7" => 7 | "8" => 8 | "9" => 9 | "a" => 10 | "b" => 11
  | "c" => 12 | "d" => 13 | "e" => 14 | _ => 15
  end%N%char.

(** The filename ends with a dot followed by the letters p, d, f, each in
    either case. *)
Definition pdf_suffix (s : string) : Prop :=
  exists stem c1 c2 c3,
    s = stem +:+ String "." (String c1 (String c2 (String c3 "")))
    /\ (c1 = "p" \/ c1 = "P")%char
    /\ (c2 = "d" \/ c2 = "D")%char
    /\ (c3 = "f" \/ c3 = "F")%char.

(** The part of the state that issuing a path changes. *)
Definition ledger (w : World) : nat * list string := (draws w, issued w).
Definition frame_ledger (f : Frame) : nat * list string := ledger (world f).

(** A computation is quiet when it leaves the observation [obs] of the
    state unchanged, whatever its outcome. *)
Definition quiet {S T A} (obs : S -> T) (m : M S A) : Prop :=
  forall s, obs (snd (m s)) = obs s.

(** The extensions an endpoint passes to [create_temp_file], in order. *)
Definition extensions (ep : Endpoint) : list string :=
  match ep with
  | AdobePdfToWord => [".pdf"; ".docx"]
  | AdobePdfToExcel => [".pdf"; ".xlsx"]
  | AdobeExtractText => [".pdf"; ".txt"]
  | _ => [".pdf"; ".pdf"]
  end.

(** The checks that precede the [try] block of an endpoint. *)
Definition accepted (ep : Endpoint) (r : Request) : bool :=
  validate_pdf_file (upload r)
  && validate_file_size (size (upload r))
  && match ep with
     | AdobeCompressPdf =>
         bool_decide (compression_level r ∈ compression_levels)
     | _ => true
     end.

(** The same request with other bytes in the uploaded file. *)
Definition with_content (bytes : string) (r : Request) : Request :=
  mkRequest (mkUploadFile (filename (upload r)) (size (upload r)) bytes)
            (password r) (compression_level r).

Definition set_scratch_dir (st : DirState) (w : World) : World :=
  mkWorld (files w) st (now w) (draws w) (log w) (issued w).

(** The state in which a sleep of the background task ends, the wall
    clock having been set by [step] meanwhile. *)
Definition slept (step : Z) (w : World) : World :=
  set_now (now w + seconds CLEANUP_INTERVAL + step) w.

(** The reading of the wall clock after the sleeps during which it was set
    by [steps], when it read [t] before the first of them. *)
Definition clock_after (steps : list Z) (t : Z) : Z :=
  fold_left (fun t step => t + seconds CLEANUP_INTERVAL + step) steps t.

(** The directory [d] can be listed, and every file that a pass would
    delete from it at the present time can be deleted. *)
Definition passable (d : string) (w : World) : Prop :=
  scratch_dir w <> DirMissing
  /\ forall p e,
       files w !! p = Some e ->
       is_Some (os.child_name d p) ->
       reclaimable (now w) e = true ->
       locked e = false /\ scratch_dir w = DirAvailable.

Section Vocabulary.

Variable TEMP_DIR : string.
Variable ext : Externals.

(** The identifier drawn at the [n]-th call of the random source, and
    the path [create_temp_file] composes from it. *)
Definition unique_id (n : nat) : string :=
  uuid.str (uuid.uuid4_int (os_urandom16 ext n)).

Definition scratch_path (n : nat) (extension : string) : string :=
  os.path_join TEMP_DIR (unique_id n +:+ extension).

(** [N] successive issuances, one per requested extension. *)
Fixpoint issue_all (extensions : list string) : M World (list string) :=
  match extensions with
  | [] => ret []
  | e :: es =>
      (p <- create_temp_file TEMP_DIR ext e ;;
       ps <- issue_all es ;;
       ret (p :: ps))%py
  end.

(** What an issuance leaves behind: its result and every component of the
    state other than the clock. *)
Definition issuance (extension : string) (w : World)
    : Outcome string * gmap string Entry * DirState * nat
      * list LogRecord * list string :=
  match create_temp_file TEMP_DIR ext extension w with
  | (r, w') => (r, files w', scratch_dir w', draws w', log w', issued w')
  end.

(** The paths that successive issuances compose from draw [d] on. *)
Fixpoint plan (d : nat) (extensions : list string) : list string :=
  match extensions with
  | [] => []
  | e :: es => scratch_path d e :: plan (S d) es
  end.

(** [m] issues the paths planned for [extensions], in order: all of them
    when it returns, and some first ones when it raises. *)
Definition issues {A} (m : M Frame A) (extensions : list string) : Prop :=
  forall f,
    match m f with
    | (r, f') =>
        exists n : nat,
          (n <= length extensions)%nat
          /\ (forall a, r = Ok a -> n = length extensions)
          /\ draws (world f') = (draws (world f) + n)%nat
          /\ issued (world f')
             = issued (world f) ++ take n (plan (draws (world f)) extensions)
    end.

(** The paths issued while a request is handled. *)
Definition issued_by (ep : Endpoint) (r : Request) (w : World) : list string :=
  drop (length (issued w)) (issued (snd (handle TEMP_DIR ext ep r w))).

(** The request is answered with status 400 and the state is untouched:
    no path was issued and the scratch directory was not accessed. *)
Definition early_reject (ep : Endpoint) (r : Request) (w : World) : Prop :=
  exists detail,
    handle TEMP_DIR ext ep r w = (Raise (HTTPException 400 detail), w).

End Vocabulary.

(** ** Vocabulary of the further properties *)

(** A computation preserves the property [P] of the state, whatever its
    outcome. *)
Definition preserves {S A} (P : S -> Prop) (m : M S A) : Prop :=
  forall s, P s -> P (snd (m s)).

(** A computation never returns: it raises an exception that satisfies
    [P]. *)
Definition always_raises {S A} (P : exn -> Prop) (m : M S A) : Prop :=
  forall s, exists e, fst (m s) = Raise e /\ P e.

Definition is_http (e : exn) : Prop :=
  exists status_code detail, e = HTTPException status_code detail.

Definition is_http_400_500 (e : exn) : Prop :=
  exists status_code detail,
    e = HTTPException status_code detail /\ (status_code = 400 \/ status_code = 500).

(** Both path variables of the handler are assigned. *)
Definition bound (p q : string) (f : Frame) : Prop :=
  input_path f = Some p /\ output_path f = Some q.

(** The scratch directory is available and differs from its content in
    [w0] at the paths [p] and [q] only, where it holds nothing or a file
    that can be deleted. *)
Definition tidy (p q : string) (w0 w : World) : Prop :=
  scratch_dir w = DirAvailable
  /\ (forall k, k <> p -> k <> q -> files w !! k = files w0 !! k)
  /\ (forall k e, k = p \/ k = q -> files w !! k = Some e ->
                  is_regular e = true /\ locked e = false).

Definition settled (p q : string) (w0 : World) (f : Frame) : Prop :=
  bound p q f /\ tidy p q w0 (world f).

(** What the [finally] block makes of the pending result [r]. *)
Definition finish {A} (r : Outcome A) (f : Frame) : Outcome A * World :=
  match cleanup_block f with
  | (Ok _, f') => (r, world f')
  | (Raise e, f') => (Raise e, world f')
  end.

(** No entry of the scratch directory is protected against deletion, and
    the directory itself is available. *)
Definition deletable (w : World) : Prop :=
  scratch_dir w = DirAvailable
  /\ forall p e, files w !! p = Some e -> locked e = false.

(** What the unlock handler answers when pikepdf raises [e] on opening the
    upload. *)
Definition unlock_failure (e : exn) : exn :=
  match e with
  | PasswordError _ => HTTPException 400 "Incorrect password for this PDF."
  | PdfError msg =>
      if Py.contains "not encrypted" (Py.lower msg)
      then HTTPException 400 "This PDF is not encrypted."
      else HTTPException 400 ("PDF error: " +:+ msg)
  | _ => HTTPException 500 ("Failed to unlock PDF: " +:+ exn_str e)
  end.

(** The call of the Adobe service that an endpoint makes, and what the
    endpoint answers when the service returns [False]. *)
Definition adobe_operation (ext : Externals) (ep : Endpoint) (r : Request)
    : option (option string -> Outcome AdobeResult) :=
  match ep with
  | AdobePdfToWord => Some (convert_pdf_to_word ext)
  | AdobePdfToExcel => Some (convert_pdf_to_excel ext)
  | AdobeCompressPdf => Some (fun input => compress_pdf ext input (compression_level r))
  | AdobeOptimizePdf => Some (optimize_pdf_for_web ext)
  | _ => None
  end.

Definition adobe_refusal (ep : Endpoint) : string :=
  match ep with
  | AdobeCompressPdf => "Adobe compression failed. Please try again."
  | AdobeOptimizePdf => "Adobe optimization failed. Please try again."
  | _ => "Adobe conversion failed. Please try again."
  end.

(** ** A concrete deployment, for the examples *)

Module Scenario.

Definition tmp : string := "/tmp/tmpk3x9".

(** Collaborators that succeed on every call; [ocr] is what the OCR step
    returns. *)
Definition libs (ocr : Outcome string) : Externals :=
  {| os_urandom16 := fun n => N.of_nat n;
     Pdf := unit;
     pikepdf_open := fun _ _ => Ok tt;
     is_encrypted := fun _ => false;
     pikepdf_save := fun _ _ => Ok "%PDF-saved";
     Document := unit;
     Link := unit;
     fitz_open := fun _ => Ok tt;
     fitz_len := fun _ => O;
     get_links := fun _ _ => Ok [];
     delete_link := fun _ _ _ => Ok tt;
     fitz_save := fun _ => Ok "%PDF-plain";
     convert_pdf_to_word := fun _ => Ok (mkAdobeResult (Some "docx") true);
     convert_pdf_to_excel := fun _ => Ok (mkAdobeResult (Some "xlsx") true);
     compress_pdf := fun _ _ => Ok (mkAdobeResult (Some "%PDF-small") true);
     optimize_pdf_for_web := fun _ => Ok (mkAdobeResult (Some "%PDF-web") true);
     extract_text_with_ocr := fun _ => ocr |}.

(** An empty scratch directory at time 0. *)
Definition idle : World := mkWorld ∅ DirAvailable 0 O [] [].

(** The scratch directory has been removed. *)
Definition gone : World := mkWorld ∅ DirMissing 0 O [] [].

Definition report : UploadFile := mkUploadFile "report.pdf" 1024 "%PDF-1.7".

Definition request (f : UploadFile) (level : string) : Request :=
  mkRequest f "secret" level.

(** Two files created 11 minutes and 1 minute before the pass. *)
Definition old_and_new : World :=
  mkWorld (<["/tmp/tmpk3x9/a.pdf" := mkEntry true 0 "old" false]>
             (<["/tmp/tmpk3x9/b.pdf" := mkEntry true (timedelta_minutes 10) "new" false]> ∅))
          DirAvailable (timedelta_minutes 11) O [] [].

(** Two files created 11 minutes before the pass; the one listed first
    cannot be deleted. *)
Definition locked_first : World :=
  mkWorld (<["/tmp/tmpk3x9/a.pdf" := mkEntry true 0 "kept open" true]>
             (<["/tmp/tmpk3x9/b.pdf" := mkEntry true 0 "orphan" false]> ∅))
          DirAvailable (timedelta_minutes 11) O [] [].

(** Collaborators that refuse: pikepdf does not open the upload without the
    right password, and the Adobe service returns [False] without writing
    anything. *)
Definition refusing : Externals :=
  {| os_urandom16 := fun n => N.of_nat n;
     Pdf := unit;
     pikepdf_open := fun _ _ => Raise (PasswordError "invalid password");
     is_encrypted := fun _ => true;
     pikepdf_save := fun _ _ => Ok "%PDF-saved";
     Document := unit;
     Link := unit;
     fitz_open := fun _ => Ok tt;
     fitz_len := fun _ => O;
     get_links := fun _ _ => Ok [];
     delete_link := fun _ _ _ => Ok tt;
     fitz_save := fun _ => Ok "%PDF-plain";
     convert_pdf_to_word := fun _ => Ok (mkAdobeResult None false);
     convert_pdf_to_excel := fun _ => Ok (mkAdobeResult None false);
     compress_pdf := fun _ _ => Ok (mkAdobeResult None false);
     optimize_pdf_for_web := fun _ => Ok (mkAdobeResult None false);
     extract_text_with_ocr := fun _ => Ok "" |}.

End Scenario.

(** * Properties *)

(** ** The model on small inputs *)

Example lower_mixed : Py.lower "Report.PdF" = "report.pdf".
Proof. reflexivity. Qed.

Example endswith_pdf : Py.endswith (Py.lower "Report.PDF") ".pdf" = true.
Proof. reflexivity. Qed.

Example replace_pdf : Py.replace "a.pdf.pdf" ".pdf" ".docx" = "a.docx.docx".
Proof. reflexivity. Qed.

Example contains_not_encrypted :
  Py.contains "not encrypted" (Py.lower "File is NOT Encrypted") = true.
Proof. reflexivity. Qed.

Example uuid4_int_zero : uuid.uuid4_int 0 = 0x00000000000040008000000000000000%N.
Proof. reflexivity. Qed.

Example uuid_str_example :
  uuid.str 0x123e4567e89b42d3a456426614174000%N
  = "123e4567-e89b-42d3-a456-426614174000".
Proof. reflexivity. Qed.

Example join_plain : os.path_join "/tmp/tmpab12" "x.pdf" = "/tmp/tmpab12/x.pdf".
Proof. reflexivity. Qed.

Example join_absolute : os.path_join "/tmp/tmpab12" "/etc/x" = "/etc/x".
Proof. reflexivity. Qed.

Example child_name_direct : os.child_name "/tmp/q" "/tmp/q/a.pdf" = Some "a.pdf".
Proof. reflexivity. Qed.

Example child_name_nested : os.child_name "/tmp/q" "/tmp/q/d/a.pdf" = None.
Proof. reflexivity. Qed.

(** ** Strings *)

Lemma str_app_cons c s t : String c s +:+ t = String c (s +:+ t).
Proof. reflexivity. Qed.

Lemma str_app_nil_r s : s +:+ "" = s.
Proof. induction s as [|c s IH]; [done|]. by rewrite str_app_cons, IH. Qed.

Lemma str_app_assoc s t u : (s +:+ t) +:+ u = s +:+ t +:+ u.
Proof. induction s as [|c s IH]; [done|]. by rewrite !str_app_cons, IH. Qed.

Lemma str_app_length s t : String.length (s +:+ t) = (String.length s + String.length t)%nat.
Proof. induction s as [|c s IH]; [done|]. rewrite str_app_cons; simpl. by rewrite IH. Qed.

Lemma str_app_inj_length s s' t t' :
  String.length s = String.length s' -> s +:+ t = s' +:+ t' -> s = s' /\ t = t'.
Proof.
  revert s'. induction s as [|c s IH]; intros [|c' s'] Hl H; try discriminate.
  - done.
  - rewrite !str_app_cons in H. injection H as -> H. injection Hl as Hl.
    destruct (IH _ Hl H) as [-> ->]. done.
Qed.

Lemma prefix_app p s : String.prefix p (p +:+ s) = true.
Proof.
  induction p as [|c p IH]; [by destruct s|].
  rewrite str_app_cons; simpl. destruct (ascii_dec c c); [done|congruence].
Qed.

Lemma prefix_inv p s : String.prefix p s = true -> exists r, s = p +:+ r.
Proof.
  revert s. induction p as [|c p IH]; intros s H.
  - by exists s.
  - destruct s as [|c' s]; [discriminate|]. simpl in H.
    destruct (ascii_dec c c') as [->|]; [|discriminate].
    destruct (IH _ H) as [r ->]. by exists r.
Qed.

Lemma strip_prefix_inv pre s r : os.strip_prefix pre s = Some r -> s = pre +:+ r.
Proof.
  revert s. induction pre as [|c pre IH]; intros s H; simpl in H.
  - injection H as ->. reflexivity.
  - destruct s as [|c' s]; [discriminate|].
    destruct (Ascii.eqb_spec c c') as [->|]; [|discriminate].
    by rewrite (IH _ H).
Qed.

Lemma strip_prefix_app pre r : os.strip_prefix pre (pre +:+ r) = Some r.
Proof.
  induction pre as [|c pre IH]; [done|].
  rewrite str_app_cons; simpl. by rewrite Ascii.eqb_refl.
Qed.

Lemma path_join_relative d a :
  Py.startswith a "/" = false -> os.path_join d a = os.dir_prefix d +:+ a.
Proof.
  intros H. unfold os.path_join, os.dir_prefix. rewrite H.
  destruct (negb (Py.truthy d) || Py.endswith d "/"); [done|].
  by rewrite str_app_assoc.
Qed.

Lemma contains_startswith sub s : Py.contains sub s = false -> Py.startswith s sub = false.
Proof.
  unfold Py.startswith. destruct s; simpl; intros H; by apply orb_false_iff in H as [? _].
Qed.

Lemma child_name_join d p a : os.child_name d p = Some a -> os.path_join d a = p.
Proof.
  unfold os.child_name. destruct (os.strip_prefix _ p) as [a'|] eqn:Hs; [|done].
  destruct (Py.truthy a' && negb (Py.contains "/" a')) eqn:Hc; [|done].
  intros [= ->]. apply andb_true_iff in Hc as [_ Hc]. apply negb_true_iff in Hc.
  rewrite path_join_relative; [|by apply contains_startswith].
  symmetry. by apply strip_prefix_inv.
Qed.

Lemma substring_all s : substring 0 (String.length s) s = s.
Proof. induction s as [|c s IH]; simpl; congruence. Qed.

Lemma substring_app_r stem s :
  substring (String.length stem) (String.length s) (stem +:+ s) = s.
Proof.
  induction stem as [|c stem IH]; [apply substring_all|].
  by rewrite str_app_cons.
Qed.

Lemma substring_split s k :
  (k <= String.length s)%nat ->
  s = substring 0 k s +:+ substring k (String.length s - k) s.
Proof.
  revert s. induction k as [|k IH]; intros s Hk.
  - rewrite Nat.sub_0_r, substring_all. by destruct s.
  - destruct s as [|c s]; simpl in Hk; [lia|].
    simpl. rewrite str_app_cons. f_equal. apply IH. lia.
Qed.

Lemma endswith_iff s suffix :
  Py.endswith s suffix = true <-> exists stem, s = stem +:+ suffix.
Proof.
  unfold Py.endswith. split.
  - destruct (Nat.leb_spec (String.length suffix) (String.length s)) as [Hl|]; [|done].
    intros H%String.eqb_eq. eexists.
    rewrite (substring_split s (String.length s - String.length suffix)) at 1 by lia.
    replace (String.length s - (String.length s - String.length suffix))%nat
      with (String.length suffix) by lia.
    by rewrite H.
  - intros [stem ->]. rewrite str_app_length.
    destruct (Nat.leb_spec (String.length suffix)
                (String.length stem + String.length suffix)) as [_|]; [|lia].
    replace (String.length stem + String.length suffix - String.length suffix)%nat
      with (String.length stem) by lia.
    rewrite substring_app_r. apply String.eqb_refl.
Qed.

Lemma lower_app s t : Py.lower (s +:+ t) = Py.lower s +:+ Py.lower t.
Proof.
  induction s as [|c s IH]; [done|].
  rewrite str_app_cons. simpl. by rewrite IH, str_app_cons.
Qed.

Lemma lower_split s a b :
  Py.lower s = a +:+ b ->
  exists s1 s2, s = s1 +:+ s2 /\ Py.lower s1 = a /\ Py.lower s2 = b.
Proof.
  revert s. induction a as [|c a IH]; intros s H.
  - by exists "", s.
  - destruct s as [|c' s]; [discriminate|].
    rewrite str_app_cons in H. simpl in H. injection H as Hc H.
    destruct (IH _ H) as (s1 & s2 & -> & <- & <-).
    exists (String c' s1), s2. simpl. by rewrite Hc.
Qed.

Lemma lower_char_dot c : Py.lower_char c = "."%char <-> c = "."%char.
Proof.
  split; [|by intros ->].
  destruct c as [[] [] [] [] [] [] [] []]; vm_compute; congruence.
Qed.

Lemma lower_char_p c : Py.lower_char c = "p"%char <-> c = "p"%char \/ c = "P"%char.
Proof.
  split; [|by intros [->| ->]].
  destruct c as [[] [] [] [] [] [] [] []]; vm_compute; intros H; auto; discriminate.
Qed.

Lemma lower_char_d c : Py.lower_char c = "d"%char <-> c = "d"%char \/ c = "D"%char.
Proof.
  split; [|by intros [->| ->]].
  destruct c as [[] [] [] [] [] [] [] []]; vm_compute; intros H; auto; discriminate.
Qed.

Lemma lower_char_f c : Py.lower_char c = "f"%char <-> c = "f"%char \/ c = "F"%char.
Proof.
  split; [|by intros [->| ->]].
  destruct c as [[] [] [] [] [] [] [] []]; vm_compute; intros H; auto; discriminate.
Qed.

Lemma validate_pdf_file_iff f :
  validate_pdf_file f = true <-> pdf_suffix (filename f).
Proof.
  unfold validate_pdf_file, pdf_suffix.
  destruct (Py.endswith (Py.lower (filename f)) ".pdf") eqn:He; simpl.
  - split; [intros _|done].
    apply endswith_iff in He as [stem' He].
    apply lower_split in He as (stem & s2 & Hs & _ & H2).
    destruct s2 as [|c0 [|c1 [|c2 [|c3 [|]]]]]; try discriminate.
    simpl in H2. injection H2 as H0 H1 H2 H3.
    apply lower_char_dot in H0 as ->.
    exists stem, c1, c2, c3. split; [done|].
    by rewrite <- lower_char_p, <- lower_char_d, <- lower_char_f.
  - split; [done|]. intros (stem & c1 & c2 & c3 & Hs & H1 & H2 & H3).
    assert (Py.endswith (Py.lower (filename f)) ".pdf" = true); [|congruence].
    apply endswith_iff. exists (Py.lower stem). rewrite Hs, lower_app. f_equal.
    apply lower_char_p in H1. apply lower_char_d in H2. apply lower_char_f in H3.
    simpl. by rewrite H1, H2, H3.
Qed.

(** ** Release *)

Lemma remove_outcome path w :
  (exists e, os.remove path w = (Raise e, w))
  \/ (os.remove path w = (Ok tt, set_files (delete path) w)
      /\ scratch_dir w = DirAvailable
      /\ exists e, files w !! path = Some e /\ is_regular e = true /\ locked e = false).
Proof.
  unfold os.remove.
  destruct (scratch_dir w) eqn:Hd; eauto;
    destruct (files w !! path) as [e|] eqn:Hf; eauto;
    destruct (is_regular e) eqn:Hr; simpl; eauto;
    destruct (locked e) eqn:Hl; simpl; eauto.
  right. eauto 10.
Qed.

Lemma release_outcome path w :
  release path w = (Ok tt, w)
  \/ (release path w = (Ok tt, set_files (delete path) w)
      /\ os.remove path w = (Ok tt, set_files (delete path) w)).
Proof.
  unfold release, bind, path_exists, try_except, ret.
  destruct (os.path_exists path w); auto.
  destruct (remove_outcome path w) as [[e He]|[He _]]; rewrite He; auto.
Qed.

Lemma release_absent path w :
  os.path_exists path w = false -> release path w = (Ok tt, w).
Proof.
  intros H. unfold release, bind, path_exists. by rewrite H.
Qed.

Lemma path_exists_delete path w :
  os.path_exists path (set_files (delete path) w) = false.
Proof.
  unfold os.path_exists. simpl. destruct (scratch_dir w); auto;
    rewrite lookup_delete_eq; apply bool_decide_eq_false; by intros [? ?].
Qed.

(** C5.  Release never errors: for every path and every state of the
    scratch directory the release step of the cleanup blocks returns
    normally; a second release of the same path returns normally and
    changes nothing; when no file is at the path, and when [os.remove]
    raises (missing file, permission), the failure is swallowed and the
    state is left as it was. *)
Theorem release_never_errors (path : string) (w : World) :
  exists w',
    release path w = (Ok tt, w')
    /\ release path w' = (Ok tt, w')
    /\ (files w !! path = None -> w' = w)
    /\ (forall e w1, os.remove path w = (Raise e, w1) -> w' = w).
Proof.
  destruct (release_outcome path w) as [H|[H Hrm]].
  - exists w. split; [done|]. split; [done|]. split; [done|]. done.
  - exists (set_files (delete path) w). split; [done|].
    split; [apply release_absent, path_exists_delete|].
    split.
    + intros Hn. destruct (remove_outcome path w) as [[e He]|(_ & _ & e & He & _)];
        congruence.
    + intros e w1 He. congruence.
Qed.

Lemma release_never_errors_witness :
  exists w',
    release "/tmp/tmpk3x9/a.pdf" Scenario.locked_first = (Ok tt, w')
    /\ release "/tmp/tmpk3x9/a.pdf" w' = (Ok tt, w')
    /\ w' = Scenario.locked_first.
Proof.
  destruct (release_never_errors "/tmp/tmpk3x9/a.pdf" Scenario.locked_first)
    as (w' & H1 & H2 & _ & H4).
  exists w'. split; [exact H1|]. split; [exact H2|].
  apply (H4 (PermissionError "/tmp/tmpk3x9/a.pdf") Scenario.locked_first).
  reflexivity.
Defined.

(** ** The reclamation pass and its loop *)

Section Reclaim.

Variable TEMP_DIR : string.

Lemma isfile_true p w :
  os.path_isfile p w = true ->
  scratch_dir w <> DirMissing
  /\ exists e, files w !! p = Some e /\ is_regular e = true.
Proof.
  unfold os.path_isfile.
  destruct (scratch_dir w); [|done|]; (destruct (files w !! p) as [e|]; [|done]);
    intros H; split; eauto.
Qed.

Lemma isfile_false p w :
  os.path_isfile p w = false ->
  scratch_dir w = DirMissing
  \/ forall e, files w !! p = Some e -> is_regular e = false.
Proof.
  unfold os.path_isfile.
  destruct (scratch_dir w); [|by left|]; (destruct (files w !! p) as [e|]);
    intros H; right; intros e' [= <-]; done.
Qed.

Lemma getctime_present p w e :
  scratch_dir w <> DirMissing -> files w !! p = Some e ->
  os.path_getctime p w = (Ok (ctime e), w).
Proof.
  intros Hd Hf. unfold os.path_getctime. rewrite Hf. by destruct (scratch_dir w).
Qed.

Lemma cleanup_entry_unfold t a w :
  cleanup_entry TEMP_DIR t a w =
  let p := os.path_join TEMP_DIR a in
  if os.path_isfile p w then
    match os.path_getctime p w with
    | (Ok file_time, w1) =>
        if t - file_time >? timedelta_minutes 10 then
          match os.remove p w1 with
          | (Ok _, w2) =>
              (Ok tt, add_log (INFO ("Cleaned up temporary file: " +:+ a)) w2)
          | (Raise e, w2) => (Raise e, w2)
          end
        else (Ok tt, w1)
    | (Raise e, w1) => (Raise e, w1)
    end
  else (Ok tt, w).
Proof.
  unfold cleanup_entry, bind, path_isfile. simpl.
  destruct (os.path_isfile _ w); [|done].
  destruct (os.path_getctime _ w) as [[file_time|e] w1]; [|done].
  destruct (_ >? _); [|done].
  by destruct (os.remove _ w1) as [[[]|e] w2].
Qed.

Lemma cleanup_entry_cases t a w :
  let p := os.path_join TEMP_DIR a in
  (cleanup_entry TEMP_DIR t a w = (Ok tt, w)
   /\ (scratch_dir w = DirMissing
       \/ forall e, files w !! p = Some e -> reclaimable t e = false))
  \/ (exists err, cleanup_entry TEMP_DIR t a w = (Raise err, w))
  \/ (exists e, files w !! p = Some e /\ reclaimable t e = true
      /\ scratch_dir w = DirAvailable
      /\ cleanup_entry TEMP_DIR t a w
         = (Ok tt, add_log (INFO ("Cleaned up temporary file: " +:+ a))
                     (set_files (delete p) w))).
Proof.
  intros p. rewrite cleanup_entry_unfold. fold p. cbv zeta. unfold reclaimable.
  destruct (os.path_isfile p w) eqn:Hi.
  - apply isfile_true in Hi as (Hd & e & Hf & Hr).
    rewrite (getctime_present _ _ _ Hd Hf).
    destruct (t - ctime e >? timedelta_minutes 10) eqn:Ht.
    + destruct (remove_outcome p w) as [[err He]|(He & Hd' & _)]; rewrite He.
      * right. left. by exists err.
      * right. right. exists e. rewrite Hr, Ht. auto.
    + left. split; [done|]. right. intros e' He'. rewrite Hf in He'.
      injection He' as <-. by rewrite Hr, Ht.
  - left. split; [done|].
    destruct (isfile_false _ _ Hi) as [?|Hn]; [by left|].
    right. intros e Hf. by rewrite (Hn _ Hf).
Qed.

(** What a run of the loop over the names [names] does to the directory. *)
Lemma sweep_spec t names w :
  match for_each names (cleanup_entry TEMP_DIR t) w with
  | (r, w') =>
      scratch_dir w' = scratch_dir w /\ now w' = now w
      /\ (forall q, files w' !! q = files w !! q
                    \/ (files w' !! q = None
                        /\ exists e, files w !! q = Some e /\ reclaimable t e = true
                                     /\ exists a, a ∈ names /\ q = os.path_join TEMP_DIR a))
      /\ (r = Ok tt -> scratch_dir w <> DirMissing ->
          forall a e, a ∈ names -> files w !! os.path_join TEMP_DIR a = Some e ->
                      reclaimable t e = true ->
                      files w' !! os.path_join TEMP_DIR a = None)
  end.
Proof.
  revert w. induction names as [|a names IH]; intros w.
  - simpl. unfold ret. repeat split; auto. intros _ _ a e Ha. by apply elem_of_nil in Ha.
  - simpl. unfold bind at 1.
    destruct (cleanup_entry_cases t a w) as [[He Hn]|[[err He]|(e & Hf & Hrec & Hd & He)]];
      rewrite He.
    + specialize (IH w). destruct (for_each names _ w) as [r w'].
      destruct IH as (Hd & Hnow & Hfiles & Hall). repeat split; auto.
      * intros q. destruct (Hfiles q) as [?|(? & e & ? & ? & a' & ? & ?)]; [by left|].
        right. split; [done|]. exists e. repeat split; auto. exists a'. split; [|done].
        by apply list_elem_of_further.
      * intros Hr Hm a' e Ha Hf Hrec. apply elem_of_cons in Ha as [->|Ha].
        -- destruct Hn as [Hn|Hn]; [done|]. rewrite (Hn _ Hf) in Hrec. discriminate.
        -- eapply Hall; eauto.
    + repeat split; auto. discriminate.
    + specialize (IH (add_log (INFO ("Cleaned up temporary file: " +:+ a))
                        (set_files (delete (os.path_join TEMP_DIR a)) w))).
      destruct (for_each names _ _) as [r w'].
      destruct IH as (Hd' & Hnow & Hfiles & Hall). simpl in *.
      repeat split; auto.
      * intros q. destruct (decide (q = os.path_join TEMP_DIR a)) as [->|Hq].
        -- right. split.
           { destruct (Hfiles (os.path_join TEMP_DIR a)) as [Hq|[Hq _]]; [|done].
             by rewrite Hq, lookup_delete_eq. }
           exists e. repeat split; auto. exists a. split; [apply list_elem_of_here|done].
        -- destruct (Hfiles q) as [Hq'|(Hq' & e' & Hf' & ? & a' & ? & ?)].
           { left. by rewrite Hq', lookup_delete_ne. }
           right. split; [done|]. exists e'. rewrite lookup_delete_ne in Hf' by done.
           repeat split; auto. exists a'. split; [by apply list_elem_of_further|done].
      * intros Hr Hm a' e' Ha Hf' Hrec'.
        destruct (decide (os.path_join TEMP_DIR a' = os.path_join TEMP_DIR a)) as [Heq|Hne].
        -- rewrite Heq. destruct (Hfiles (os.path_join TEMP_DIR a)) as [Hq|[Hq _]]; [|done].
           by rewrite Hq, lookup_delete_eq.
        -- apply elem_of_cons in Ha as [->|Ha]; [done|].
           eapply Hall; eauto. by rewrite lookup_delete_ne.
Qed.

Lemma listdir_names w :
  scratch_dir w <> DirMissing ->
  exists names,
    os.listdir TEMP_DIR w = (Ok names, w)
    /\ forall a, a ∈ names <->
         exists p e, files w !! p = Some e /\ os.child_name TEMP_DIR p = Some a.
Proof.
  intros Hd. exists (omap (fun kv => os.child_name TEMP_DIR (fst kv)) (map_to_list (files w))).
  split.
  - unfold os.listdir. by destruct (scratch_dir w).
  - intros a. rewrite list_elem_of_omap. split.
    + intros ([p e] & Hin & Hc). apply elem_of_map_to_list in Hin. eauto.
    + intros (p & e & Hf & Hc). exists (p, e). split; [|done].
      by apply elem_of_map_to_list.
Qed.

Lemma cleanup_pass_unfold w :
  cleanup_pass TEMP_DIR w =
  match os.listdir TEMP_DIR w with
  | (Ok names, w1) => for_each names (cleanup_entry TEMP_DIR (now w)) w1
  | (Raise e, w1) => (Raise e, w1)
  end.
Proof. reflexivity. Qed.

Lemma listdir_missing w :
  scratch_dir w = DirMissing ->
  os.listdir TEMP_DIR w = (Raise (FileNotFoundError TEMP_DIR), w).
Proof. intros H. unfold os.listdir. by rewrite H. Qed.

(** What [cleanup_entry] does to a directory that can be listed. *)
Lemma cleanup_entry_outcome t a w :
  let p := os.path_join TEMP_DIR a in
  scratch_dir w <> DirMissing ->
  match files w !! p with
  | Some e =>
      if reclaimable t e then
        if negb (locked e) && bool_decide (scratch_dir w = DirAvailable)
        then cleanup_entry TEMP_DIR t a w
             = (Ok tt, add_log (INFO ("Cleaned up temporary file: " +:+ a))
                         (set_files (delete p) w))
        else cleanup_entry TEMP_DIR t a w = (Raise (PermissionError p), w)
      else cleanup_entry TEMP_DIR t a w = (Ok tt, w)
  | None => cleanup_entry TEMP_DIR t a w = (Ok tt, w)
  end.
Proof.
  intros p Hd. rewrite cleanup_entry_unfold. fold p. cbv zeta.
  unfold os.path_isfile, os.path_getctime, os.remove, reclaimable.
  destruct (files w !! p) as [e|] eqn:Hf; [|by destruct (scratch_dir w)].
  destruct (scratch_dir w) eqn:Hs; [|done|];
    (destruct (is_regular e) eqn:Hr; [|done]); simpl;
    (destruct (_ >? _); [|done]); rewrite ?Hs, ?Hf, ?Hr; simpl;
    by destruct (locked e).
Qed.

(** When the loop over [names] ends without an error, and what it leaves
    when it does not. *)
Lemma sweep_outcome t names w r w' :
  scratch_dir w <> DirMissing ->
  for_each names (cleanup_entry TEMP_DIR t) w = (r, w') ->
  (r = Ok tt ->
   forall a e, a ∈ names -> files w !! os.path_join TEMP_DIR a = Some e ->
               reclaimable t e = true ->
               locked e = false /\ scratch_dir w = DirAvailable)
  /\ ((forall a e, a ∈ names -> files w !! os.path_join TEMP_DIR a = Some e ->
                   reclaimable t e = true ->
                   locked e = false /\ scratch_dir w = DirAvailable) ->
      r = Ok tt)
  /\ (r <> Ok tt ->
      exists a e, a ∈ names /\ files w !! os.path_join TEMP_DIR a = Some e
                  /\ reclaimable t e = true
                  /\ files w' !! os.path_join TEMP_DIR a = Some e).
Proof.
  revert w. induction names as [|a names IH]; intros w Hd Hrun.
  - injection Hrun as <- <-. split; [|split]; [|done..].
    intros _ a e Ha. by apply elem_of_nil in Ha.
  - simpl in Hrun. unfold bind in Hrun.
    pose proof (cleanup_entry_outcome t a w Hd) as Ha. cbv zeta in Ha.
    destruct (files w !! os.path_join TEMP_DIR a) as [e|] eqn:Hf;
      [destruct (reclaimable t e) eqn:Hrec;
       [destruct (negb (locked e) && bool_decide (scratch_dir w = DirAvailable)) eqn:Hdel|]|];
      rewrite Ha in Hrun.
    + (* deleted *)
      apply andb_true_iff in Hdel as [Hl Hav]. apply negb_true_iff in Hl.
      apply bool_decide_eq_true_1 in Hav.
      apply IH in Hrun as (IH1 & IH2 & IH3); [|exact Hd]. simpl in IH1, IH2, IH3.
      split; [|split].
      * intros Hr a' e' Hin Hf' Hrec'.
        destruct (decide (os.path_join TEMP_DIR a' = os.path_join TEMP_DIR a)) as [Heq|Hne].
        -- rewrite Heq, Hf in Hf'. by injection Hf' as <-.
        -- apply elem_of_cons in Hin as [->|Hin]; [done|].
           apply (IH1 Hr a' e'); [done| |done]. by rewrite lookup_delete_ne.
      * intros Hall. apply IH2. intros a' e' Hin Hf' Hrec'.
        apply lookup_delete_Some in Hf' as [_ Hf'].
        apply (Hall a' e'); [by apply list_elem_of_further|done..].
      * intros Hr. destruct (IH3 Hr) as (a' & e' & Hin & Hf' & Hrec' & Hw').
        apply lookup_delete_Some in Hf' as [_ Hf'].
        exists a', e'. split; [by apply list_elem_of_further|done].
    + (* the deletion fails *)
      injection Hrun as <- <-. split; [done|]. split.
      * intros Hall. exfalso.
        destruct (Hall a e (list_elem_of_here _ _) Hf Hrec) as [Hl Hav].
        rewrite Hl, Hav in Hdel. by vm_compute in Hdel.
      * intros _. exists a, e. split; [apply list_elem_of_here|done].
    + (* kept *)
      destruct (IH _ Hd Hrun) as (IH1 & IH2 & IH3). split; [|split].
      * intros Hr a' e' Hin Hf' Hrec'.
        apply elem_of_cons in Hin as [->|Hin]; [|by apply (IH1 Hr a' e')].
        rewrite Hf in Hf'. injection Hf' as <-. congruence.
      * intros Hall. apply IH2. intros a' e' Hin.
        apply Hall. by apply list_elem_of_further.
      * intros Hr. destruct (IH3 Hr) as (a' & e' & Hin & H').
        exists a', e'. split; [by apply list_elem_of_further|done].
    + (* absent *)
      destruct (IH _ Hd Hrun) as (IH1 & IH2 & IH3). split; [|split].
      * intros Hr a' e' Hin Hf' Hrec'.
        apply elem_of_cons in Hin as [->|Hin]; [|by apply (IH1 Hr a' e')].
        by rewrite Hf in Hf'.
      * intros Hall. apply IH2. intros a' e' Hin.
        apply Hall. by apply list_elem_of_further.
      * intros Hr. destruct (IH3 Hr) as (a' & e' & Hin & H').
        exists a', e'. split; [by apply list_elem_of_further|done].
Qed.

(** C3 (amended).  A reclamation pass deletes only regular files located
    directly in the scratch directory whose age, now minus creation time,
    strictly exceeds ten minutes, and leaves every other entry as it was.
    It ends without an error exactly when the directory can be listed and
    each of these files can be deleted, and it has then deleted all of
    them.  A pass that meets a directory it can list and ends with an
    error has left at least one of these files in place. *)
Theorem reclaim_stale_pass (w : World) (r : Outcome unit) (w' : World) :
  cleanup_pass TEMP_DIR w = (r, w') ->
  (forall p,
      files w' !! p = files w !! p
      \/ (files w' !! p = None
          /\ exists e, files w !! p = Some e
                       /\ reclaimable (now w) e = true
                       /\ is_Some (os.child_name TEMP_DIR p)))
  /\ (r = Ok tt <-> passable TEMP_DIR w)
  /\ (r = Ok tt ->
      forall p e,
        files w !! p = Some e ->
        is_Some (os.child_name TEMP_DIR p) ->
        reclaimable (now w) e = true ->
        files w' !! p = None)
  /\ (r <> Ok tt -> scratch_dir w <> DirMissing ->
      exists p e,
        files w !! p = Some e
        /\ is_Some (os.child_name TEMP_DIR p)
        /\ reclaimable (now w) e = true
        /\ files w' !! p = Some e).
Proof.
  rewrite cleanup_pass_unfold.
  destruct (decide (scratch_dir w = DirMissing)) as [Hd|Hd].
  { rewrite (listdir_missing _ Hd). intros [= <- <-].
    split; [by left|]. split; [|split]; [|discriminate|done].
    split; [discriminate|]. by intros [? _]. }
  destruct (listdir_names w Hd) as (names & -> & Hnames).
  pose proof (sweep_spec (now w) names w) as Hs. intros Hrun.
  destruct (sweep_outcome (now w) names w r w' Hd Hrun) as (Ho1 & Ho2 & Ho3).
  rewrite Hrun in Hs. destruct Hs as (_ & _ & Hfiles & Hall).
  assert (Hlisted : forall p e, files w !! p = Some e -> forall a,
             os.child_name TEMP_DIR p = Some a ->
             a ∈ names /\ os.path_join TEMP_DIR a = p).
  { intros p e Hf a Hc. split; [|by apply child_name_join].
    apply Hnames. eauto. }
  split; [|split; [|split]].
  - intros p. destruct (Hfiles p) as [?|(Hn & e & Hf & Hrec & a & Ha & ->)]; [by left|].
    right. split; [done|]. exists e. repeat split; auto.
    apply Hnames in Ha as (p' & e' & _ & Hc).
    rewrite (child_name_join _ _ _ Hc). by exists a.
  - split.
    + intros Hr. split; [done|]. intros p e Hf [a Hc] Hrec.
      destruct (Hlisted p e Hf a Hc) as [Ha Hp].
      apply (Ho1 Hr a e); [done| |done]. by rewrite Hp.
    + intros [_ Hpass]. apply Ho2. intros a e Ha Hf Hrec.
      apply Hnames in Ha as (p & e' & _ & Hc).
      apply (Hpass (os.path_join TEMP_DIR a) e); [done| |done].
      rewrite (child_name_join _ _ _ Hc). by exists a.
  - intros Hr p e Hf [a Hc] Hrec.
    rewrite <- (child_name_join _ _ _ Hc) in Hf |- *.
    eapply Hall; eauto. apply Hnames.
    exists p, e. split; [|done]. by rewrite <- (child_name_join _ _ _ Hc).
  - intros Hr _. destruct (Ho3 Hr) as (a & e & Ha & Hf & Hrec & Hw').
    exists (os.path_join TEMP_DIR a), e. split; [done|]. split; [|done].
    apply Hnames in Ha as (p & e' & _ & Hc).
    rewrite (child_name_join _ _ _ Hc). by exists a.
Qed.

Lemma cleanup_pass_now w : now (snd (cleanup_pass TEMP_DIR w)) = now w.
Proof.
  rewrite cleanup_pass_unfold. unfold os.listdir.
  destruct (scratch_dir w); [|done|];
    match goal with
    | |- context [for_each ?ns ?f w] =>
        pose proof (sweep_spec (now w) ns w) as Hs;
        destruct (for_each ns f w) as [r w']; by destruct Hs as (_ & ? & _)
    end.
Qed.

Lemma cleanup_turn_unfold step w :
  cleanup_turn TEMP_DIR step w =
  match cleanup_pass TEMP_DIR w with
  | (Ok _, w1) => (Ok tt, slept step w1)
  | (Raise e, w1) =>
      (Ok tt, slept step (add_log (ERROR ("Error during cleanup: " +:+ exn_str e)) w1))
  end.
Proof.
  unfold cleanup_turn, bind, try_except.
  by destruct (cleanup_pass TEMP_DIR w) as [[[]|e] w1].
Qed.

Lemma cleanup_turn_continues step w :
  exists w', cleanup_turn TEMP_DIR step w = (Ok tt, w')
             /\ now w' = now w + seconds CLEANUP_INTERVAL + step.
Proof.
  rewrite cleanup_turn_unfold. pose proof (cleanup_pass_now w) as Hn.
  destruct (cleanup_pass TEMP_DIR w) as [[[]|e] w1]; simpl in *;
    eexists; (split; [reflexivity|]); simpl; by rewrite Hn.
Qed.

Lemma clock_after_snoc steps step t :
  clock_after (steps ++ [step]) t
  = clock_after steps t + seconds CLEANUP_INTERVAL + step.
Proof. unfold clock_after. by rewrite fold_left_app. Qed.

(** The loop, one turn further. *)
Lemma cleanup_temp_files_snoc steps step w :
  cleanup_temp_files TEMP_DIR (steps ++ [step]) w
  = match cleanup_temp_files TEMP_DIR steps w with
    | Running w_n =>
        match cleanup_turn TEMP_DIR step w_n with
        | (Ok _, w') => Running w'
        | (Raise e, w') => Exited e w'
        end
    | Exited e w' => Exited e w'
    end.
Proof.
  revert w. induction steps as [|s steps IH]; intros w; simpl.
  - by destruct (cleanup_turn TEMP_DIR step w) as [[[]|e] w'].
  - destruct (cleanup_turn TEMP_DIR s w) as [[[]|e] w']; [apply IH|done].
Qed.

Lemma cleanup_temp_files_running steps w :
  exists w_n,
    cleanup_temp_files TEMP_DIR steps w = Running w_n
    /\ now w_n = clock_after steps (now w).
Proof.
  induction steps as [|step steps IH] using rev_ind.
  - by exists w.
  - destruct IH as (w_n & Hrun & Hnow).
    destruct (cleanup_turn_continues step w_n) as (w' & Ht & Hn').
    exists w'. rewrite cleanup_temp_files_snoc, Hrun, Ht, clock_after_snoc.
    split; [done|]. by rewrite Hn', Hnow.
Qed.

(** C6.  The background loop never stops.  After any number of turns it
    is still running, and the wall clock has moved by 600 seconds for each
    sleep, beside the steps by which it was set.  The next turn runs a
    pass on the state that these turns left: when the pass ends without
    an error the turn sleeps, and when it raises an error the turn logs
    it and sleeps all the same; in both cases the loop is running
    afterwards, ready for the pass that follows. *)
Theorem cleanup_loop_never_stops (steps : list Z) (step : Z) (w : World) :
  exists w_n,
    cleanup_temp_files TEMP_DIR steps w = Running w_n
    /\ now w_n = clock_after steps (now w)
    /\ (forall w1,
          cleanup_pass TEMP_DIR w_n = (Ok tt, w1) ->
          cleanup_temp_files TEMP_DIR (steps ++ [step]) w = Running (slept step w1))
    /\ (forall e w1,
          cleanup_pass TEMP_DIR w_n = (Raise e, w1) ->
          cleanup_temp_files TEMP_DIR (steps ++ [step]) w
          = Running (slept step
                       (add_log (ERROR ("Error during cleanup: " +:+ exn_str e)) w1))).
Proof.
  destruct (cleanup_temp_files_running steps w) as (w_n & Hrun & Hnow).
  exists w_n. split; [done|]. split; [done|].
  split; [intros w1 Hp|intros e w1 Hp];
    by rewrite cleanup_temp_files_snoc, Hrun, cleanup_turn_unfold, Hp.
Qed.

End Reclaim.

Lemma old_and_new_passable : passable Scenario.tmp Scenario.old_and_new.
Proof.
  split; [discriminate|]. intros p e H _ _.
  unfold Scenario.old_and_new in H. cbn [files] in H.
  apply lookup_insert_Some in H as [[_ <-]|[_ H]]; [by split|].
  apply lookup_insert_Some in H as [[_ <-]|[_ H]]; [by split|].
  by rewrite lookup_empty in H.
Defined.

Lemma reclaim_stale_pass_witness :
  let r := fst (cleanup_pass Scenario.tmp Scenario.old_and_new) in
  let w' := snd (cleanup_pass Scenario.tmp Scenario.old_and_new) in
  r = Ok tt
  /\ files w' !! "/tmp/tmpk3x9/a.pdf" = None
  /\ files w' !! "/tmp/tmpk3x9/b.pdf"
     = Some (mkEntry true (timedelta_minutes 10) "new" false).
Proof.
  destruct (reclaim_stale_pass Scenario.tmp Scenario.old_and_new
              (fst (cleanup_pass Scenario.tmp Scenario.old_and_new))
              (snd (cleanup_pass Scenario.tmp Scenario.old_and_new)))
    as (Hkeep & Hok & Hdel & _).
  { by destruct (cleanup_pass _ _). }
  pose proof (proj2 Hok old_and_new_passable) as Hr.
  split; [exact Hr|]. split.
  - apply (Hdel Hr _ (mkEntry true 0 "old" false)).
    + reflexivity.
    + by exists "a.pdf".
    + reflexivity.
  - destruct (Hkeep "/tmp/tmpk3x9/b.pdf") as [->|(_ & e & He & Hrec & _)].
    + reflexivity.
    + vm_compute in He. injection He as <-. vm_compute in Hrec. discriminate.
Defined.

(** The pass stops at the first deletion that fails: a file older than ten
    minutes that is listed after it stays. *)
Lemma reclaim_stale_pass_counterexample :
  ~ (forall p e,
        files Scenario.locked_first !! p = Some e ->
        is_Some (os.child_name Scenario.tmp p) ->
        reclaimable (now Scenario.locked_first) e = true ->
        files (snd (cleanup_pass Scenario.tmp Scenario.locked_first)) !! p = None).
Proof.
  intros H.
  specialize (H "/tmp/tmpk3x9/b.pdf" (mkEntry true 0 "orphan" false) eq_refl).
  assert (Hgone : files (snd (cleanup_pass Scenario.tmp Scenario.locked_first))
                    !! "/tmp/tmpk3x9/b.pdf" = None).
  { apply H; [by exists "b.pdf"|reflexivity]. }
  vm_compute in Hgone. discriminate.
Qed.

Example locked_first_pass_raises :
  fst (cleanup_pass Scenario.tmp Scenario.locked_first)
  = Raise (PermissionError "/tmp/tmpk3x9/a.pdf").
Proof. reflexivity. Qed.

(** Two turns in a directory whose first file cannot be deleted: each pass
    raises, each error is logged, and the loop is running after them. *)
Lemma cleanup_loop_never_stops_witness :
  exists w',
    cleanup_temp_files Scenario.tmp [0; 0] Scenario.locked_first = Running w'
    /\ log w'
       = [ERROR "Error during cleanup: [Errno 13] Permission denied: '/tmp/tmpk3x9/a.pdf'";
          ERROR "Error during cleanup: [Errno 13] Permission denied: '/tmp/tmpk3x9/a.pdf'"]
    /\ now w' = timedelta_minutes 31.
Proof.
  destruct (cleanup_loop_never_stops Scenario.tmp [0] 0 Scenario.locked_first)
    as (w_n & Hrun & _ & _ & Herr).
  vm_compute in Hrun. injection Hrun as <-.
  eexists. split.
  - apply (Herr (PermissionError "/tmp/tmpk3x9/a.pdf")). vm_compute. reflexivity.
  - split; vm_compute; reflexivity.
Defined.

(** ** Identifiers *)

Section Identifiers.
Local Open Scope N_scope.

Lemma lor_lt_pow2 a b n : (a < 2 ^ n -> b < 2 ^ n -> N.lor a b < 2 ^ n)%N.
Proof.
  intros Ha Hb.
  destruct (N.eq_dec (N.lor a b) 0) as [->|Hz]; [lia|].
  apply N.log2_lt_pow2; [lia|]. rewrite N.log2_lor.
  destruct (N.eq_dec a 0) as [->|Ha0], (N.eq_dec b 0) as [->|Hb0].
  - rewrite N.lor_0_l in Hz. lia.
  - rewrite N.max_r by (simpl; lia). apply N.log2_lt_pow2; lia.
  - rewrite N.max_l by (simpl; lia). apply N.log2_lt_pow2; lia.
  - apply N.max_lub_lt; apply N.log2_lt_pow2; lia.
Qed.

Lemma uuid4_int_bound r : (uuid.uuid4_int r < 2 ^ 128)%N.
Proof.
  unfold uuid.uuid4_int. cbv zeta.
  apply lor_lt_pow2; [|by vm_compute].
  eapply N.le_lt_trans; [apply N.ldiff_le_l|].
  apply lor_lt_pow2; [|by vm_compute].
  eapply N.le_lt_trans; [apply N.ldiff_le_l|].
  apply N.mod_lt. by vm_compute.
Qed.

Lemma hex_val_char d : (d < 16)%N -> hex_val (uuid.hex_char d) = d.
Proof.
  intros H. destruct d as [|p]; [done|].
  do 4 (try destruct p as [p|p|]); try reflexivity; lia.
Qed.

Lemma hex_char_not_sep d : uuid.hex_char d <> "/"%char.
Proof.
  destruct d as [|p]; [done|].
  do 4 (try destruct p as [p|p|]); done.
Qed.

Lemma hex_fixed_length k n : String.length (uuid.hex_fixed k n) = k.
Proof. induction k as [|k IH]; simpl; congruence. Qed.

Lemma hex_fixed_inj k n m :
  uuid.hex_fixed k n = uuid.hex_fixed k m ->
  (n mod 16 ^ N.of_nat k = m mod 16 ^ N.of_nat k)%N.
Proof.
  induction k as [|k IH]; intros H.
  - simpl. by rewrite !N.mod_1_r.
  - simpl in H. injection H as Hc Ht. specialize (IH Ht).
    apply (f_equal hex_val) in Hc.
    rewrite !hex_val_char in Hc by (apply N.mod_lt; lia).
    rewrite Nat2N.inj_succ, N.pow_succ_r', (N.mul_comm 16).
    rewrite !N.Div0.mod_mul_r. congruence.
Qed.

Lemma uuid_str_length u : String.length (uuid.str u) = 36%nat.
Proof. unfold uuid.str. rewrite !str_app_length, !hex_fixed_length. reflexivity. Qed.

Lemma uuid_str_inj u v :
  (u < 2 ^ 128)%N -> (v < 2 ^ 128)%N -> uuid.str u = uuid.str v -> u = v.
Proof.
  intros Hu Hv H. unfold uuid.str in H.
  apply str_app_inj_length in H as [H1 H]; [|by rewrite !hex_fixed_length].
  apply (str_app_inj_length "-" "-") in H as [_ H]; [|done].
  apply str_app_inj_length in H as [H2 H]; [|by rewrite !hex_fixed_length].
  apply (str_app_inj_length "-" "-") in H as [_ H]; [|done].
  apply str_app_inj_length in H as [H3 H]; [|by rewrite !hex_fixed_length].
  apply (str_app_inj_length "-" "-") in H as [_ H]; [|done].
  apply str_app_inj_length in H as [H4 H]; [|by rewrite !hex_fixed_length].
  apply (str_app_inj_length "-" "-") in H as [_ H]; [|done].
  apply hex_fixed_inj in H1, H2, H3, H4.
  apply hex_fixed_inj in H.
  change (N.of_nat 8) with 8 in H1. change (N.of_nat 4) with 4 in H2, H3, H4.
  change (N.of_nat 12) with 12 in H.
  assert (E16 : u mod (16 ^ 12 * 16 ^ 4) = v mod (16 ^ 12 * 16 ^ 4)).
  { rewrite !N.Div0.mod_mul_r. congruence. }
  change (16 ^ 16) with (16 ^ 12 * 16 ^ 4) in H3.
  assert (E20 : u mod (16 ^ 12 * 16 ^ 4 * 16 ^ 4) = v mod (16 ^ 12 * 16 ^ 4 * 16 ^ 4)).
  { rewrite (N.Div0.mod_mul_r u), (N.Div0.mod_mul_r v). congruence. }
  change (16 ^ 20) with (16 ^ 12 * 16 ^ 4 * 16 ^ 4) in H2.
  assert (E24 : u mod (16 ^ 12 * 16 ^ 4 * 16 ^ 4 * 16 ^ 4)
                = v mod (16 ^ 12 * 16 ^ 4 * 16 ^ 4 * 16 ^ 4)).
  { rewrite (N.Div0.mod_mul_r u), (N.Div0.mod_mul_r v). congruence. }
  change (16 ^ 24) with (16 ^ 12 * 16 ^ 4 * 16 ^ 4 * 16 ^ 4) in H1.
  assert (E32 : u mod (16 ^ 12 * 16 ^ 4 * 16 ^ 4 * 16 ^ 4 * 16 ^ 8)
                = v mod (16 ^ 12 * 16 ^ 4 * 16 ^ 4 * 16 ^ 4 * 16 ^ 8)).
  { rewrite (N.Div0.mod_mul_r u), (N.Div0.mod_mul_r v). congruence. }
  change (16 ^ 12 * 16 ^ 4 * 16 ^ 4 * 16 ^ 4 * 16 ^ 8) with (2 ^ 128) in E32.
  by rewrite !N.mod_small in E32.
Qed.

End Identifiers.

(** ** Issuing scratch paths *)

Section Issue.

Variable TEMP_DIR : string.
Variable ext : Externals.

Lemma create_temp_file_eq extension w :
  create_temp_file TEMP_DIR ext extension w
  = (Ok (scratch_path TEMP_DIR ext (draws w) extension),
     add_issued (scratch_path TEMP_DIR ext (draws w) extension) (set_draws (S (draws w)) w)).
Proof. reflexivity. Qed.

Lemma prefix_sep_cons c s : c <> "/"%char -> String.prefix "/" (String c s) = false.
Proof.
  intros Hc. cbn -[ascii_dec]. destruct (ascii_dec "/" c) as [E|]; [|done].
  by symmetry in E.
Qed.

Lemma unique_id_relative n extension :
  Py.startswith (unique_id ext n +:+ extension) "/" = false.
Proof.
  unfold unique_id, uuid.str, Py.startswith.
  change (uuid.hex_fixed 8 ?x)
    with (String (uuid.hex_char ((x / 16 ^ 7) mod 16)%N) (uuid.hex_fixed 7 x)).
  rewrite str_app_cons. apply prefix_sep_cons, hex_char_not_sep.
Qed.

Lemma scratch_path_inside n extension :
  scratch_path TEMP_DIR ext n extension = os.dir_prefix TEMP_DIR +:+ unique_id ext n +:+ extension.
Proof. apply path_join_relative, unique_id_relative. Qed.

Lemma scratch_path_inj n m e e' :
  scratch_path TEMP_DIR ext n e = scratch_path TEMP_DIR ext m e' ->
  uuid.uuid4_int (os_urandom16 ext n) = uuid.uuid4_int (os_urandom16 ext m).
Proof.
  rewrite !scratch_path_inside. intros H. apply (inj _) in H.
  unfold unique_id in H.
  apply str_app_inj_length in H as [H _]; [|by rewrite !uuid_str_length].
  by apply uuid_str_inj in H; [|apply uuid4_int_bound..].
Qed.

Lemma issue_all_eq extensions w :
  exists w',
    issue_all TEMP_DIR ext extensions w
    = (Ok (imap (fun k e => scratch_path TEMP_DIR ext (draws w + k) e) extensions), w').
Proof.
  revert w. induction extensions as [|e es IH]; intros w.
  - by exists w.
  - simpl. unfold bind at 1. rewrite create_temp_file_eq.
    destruct (IH (add_issued (scratch_path TEMP_DIR ext (draws w) e) (set_draws (S (draws w)) w)))
      as [w' Hw'].
    exists w'. unfold bind at 1. rewrite Hw'. simpl. unfold ret.
    rewrite Nat.add_0_r. do 3 f_equal.
    apply imap_ext. intros k x _. simpl. f_equal. lia.
Qed.

(** C4.  Issuances whose random identifiers are pairwise distinct return
    pairwise distinct paths, whatever their number and whatever
    extensions are asked for: no two entries share a path. *)
Theorem issued_paths_distinct (extensions : list string) (w : World) :
  NoDup (map (fun k => uuid.uuid4_int (os_urandom16 ext (draws w + k)))
             (seq 0 (length extensions))) ->
  exists paths w',
    issue_all TEMP_DIR ext extensions w = (Ok paths, w')
    /\ length paths = length extensions
    /\ NoDup paths.
Proof.
  intros Hids. destruct (issue_all_eq extensions w) as [w' Hw'].
  eexists _, w'. split; [exact Hw'|]. split; [by rewrite length_imap|].
  apply NoDup_alt. intros i j p Hi Hj.
  apply list_lookup_imap_Some in Hi as (e & Hi & ->).
  apply list_lookup_imap_Some in Hj as (e' & Hj & Hp).
  apply scratch_path_inj in Hp.
  apply lookup_lt_Some in Hi, Hj.
  eapply (proj1 (NoDup_alt _) Hids); rewrite list_lookup_fmap, lookup_seq_lt by done;
    simpl; [reflexivity|by rewrite Hp].
Qed.

(** C8 (amended).  [create_temp_file] draws a fresh random identifier and
    returns the scratch directory's path followed by that identifier and
    by the extension it was given; it creates no file and changes neither
    the directory nor the log.  It records no creation time: the clock
    has no influence on what it returns or leaves behind. *)
Theorem create_temp_file_effect (extension : string) (w : World) :
  exists w',
    create_temp_file TEMP_DIR ext extension w
    = (Ok (os.dir_prefix TEMP_DIR +:+ unique_id ext (draws w) +:+ extension), w')
    /\ draws w' = S (draws w)
    /\ files w' = files w /\ scratch_dir w' = scratch_dir w /\ log w' = log w
    /\ forall t,
         create_temp_file TEMP_DIR ext extension (set_now t w)
         = (Ok (os.dir_prefix TEMP_DIR +:+ unique_id ext (draws w) +:+ extension),
            set_now t w').
Proof.
  eexists. rewrite <- scratch_path_inside. split; [apply create_temp_file_eq|].
  repeat split; auto.
Qed.

(** C7 (amended).  [create_temp_file] never fails and does not look at the
    scratch directory: it returns the same path whether the directory is
    available, missing or not writable.  When the directory is not
    available, what fails is the write of the caller to the new path.
    Failures of the release step and of the reclamation pass do not reach
    a caller either: the release step returns normally whether or not its
    deletion fails, and the error of a pass is logged by its turn, after
    which the background loop goes on. *)
Theorem create_temp_file_never_fails (extension : string) (w : World) :
  (exists p w',
      create_temp_file TEMP_DIR ext extension w = (Ok p, w')
      /\ (forall st,
            fst (create_temp_file TEMP_DIR ext extension (set_scratch_dir st w)) = Ok p)
      /\ (scratch_dir w <> DirAvailable -> files w !! p = None ->
          forall bytes, exists e, write_file p bytes w' = (Raise e, w')))
  /\ (forall path,
        (exists w', release path w = (Ok tt, w'))
        /\ forall e, os.remove path w = (Raise e, w) -> release path w = (Ok tt, w))
  /\ (forall step,
        (exists w', cleanup_turn TEMP_DIR step w = (Ok tt, w'))
        /\ forall e w1,
             cleanup_pass TEMP_DIR w = (Raise e, w1) ->
             cleanup_turn TEMP_DIR step w
             = (Ok tt, slept step
                         (add_log (ERROR ("Error during cleanup: " +:+ exn_str e)) w1)))
  /\ (forall steps, exists w', cleanup_temp_files TEMP_DIR steps w = Running w').
Proof.
  split; [|split; [|split]].
  - eexists _, _. split; [apply create_temp_file_eq|]. split; [done|].
    intros Hd Hf bytes. unfold write_file. simpl. rewrite Hf.
    destruct (scratch_dir w); [done|by eexists..].
  - intros path. split.
    + destruct (release_outcome path w) as [H|[H _]]; eauto.
    + intros e He. destruct (release_outcome path w) as [H|[_ H]]; [done|].
      rewrite H in He. discriminate.
  - intros step. split.
    + destruct (cleanup_turn_continues TEMP_DIR step w) as (w' & H & _). eauto.
    + intros e w1 Hp. by rewrite cleanup_turn_unfold, Hp.
  - intros steps.
    destruct (cleanup_temp_files_running TEMP_DIR steps w) as (w' & H & _). eauto.
Qed.

End Issue.

Lemma issued_paths_distinct_witness :
  exists paths w',
    issue_all Scenario.tmp (Scenario.libs (Ok "")) [".pdf"; ".pdf"; ".txt"] Scenario.idle
    = (Ok paths, w')
    /\ length paths = 3%nat
    /\ NoDup paths.
Proof.
  apply (issued_paths_distinct Scenario.tmp (Scenario.libs (Ok ""))
           [".pdf"; ".pdf"; ".txt"] Scenario.idle).
  apply (bool_decide_unpack _). vm_compute. exact I.
Defined.

(** Two issuances with two clock readings leave the same trace: no
    function of what an issuance returns and leaves behind gives back the
    time at which it was made. *)
Lemma create_temp_file_effect_counterexample :
  ~ exists created_at,
      forall w,
        created_at (issuance Scenario.tmp (Scenario.libs (Ok "")) ".pdf" w) = now w.
Proof.
  intros [created_at H].
  pose proof (H Scenario.idle) as H0.
  pose proof (H (set_now 1 Scenario.idle)) as H1.
  change (issuance _ _ _ (set_now 1 Scenario.idle))
    with (issuance Scenario.tmp (Scenario.libs (Ok "")) ".pdf" Scenario.idle) in H1.
  rewrite H0 in H1. discriminate.
Qed.

Lemma create_temp_file_never_fails_witness :
  (exists p w',
      create_temp_file Scenario.tmp (Scenario.libs (Ok "")) ".pdf" Scenario.gone
      = (Ok p, w')
      /\ exists e, write_file p "%PDF-1.7" w' = (Raise e, w'))
  /\ release "/tmp/tmpk3x9/a.pdf" Scenario.locked_first = (Ok tt, Scenario.locked_first)
  /\ exists w', cleanup_temp_files Scenario.tmp [0; 0; 0] Scenario.gone = Running w'.
Proof.
  split; [|split].
  - destruct (create_temp_file_never_fails Scenario.tmp (Scenario.libs (Ok ""))
                ".pdf" Scenario.gone) as [(p & w' & H1 & _ & H3) _].
    exists p, w'. split; [exact H1|].
    apply H3; [discriminate|]. apply lookup_empty.
  - destruct (create_temp_file_never_fails Scenario.tmp (Scenario.libs (Ok ""))
                ".pdf" Scenario.locked_first) as (_ & H & _).
    apply (proj2 (H "/tmp/tmpk3x9/a.pdf") (PermissionError "/tmp/tmpk3x9/a.pdf")).
    reflexivity.
  - destruct (create_temp_file_never_fails Scenario.tmp (Scenario.libs (Ok ""))
                ".pdf" Scenario.gone) as (_ & _ & _ & H).
    apply H.
Defined.

(** The scratch directory is missing and a path is issued all the same. *)
Lemma create_temp_file_never_fails_counterexample :
  scratch_dir Scenario.gone = DirMissing
  /\ fst (create_temp_file Scenario.tmp (Scenario.libs (Ok "")) ".pdf" Scenario.gone)
     = Ok "/tmp/tmpk3x9/00000000-0000-4000-8000-000000000000.pdf".
Proof. split; reflexivity. Qed.

(** The missing directory is met by the handler when it saves the upload;
    the handler reports it as status 500. *)
Example unlock_without_directory :
  fst (unlock_pdf_legacy Scenario.tmp (Scenario.libs (Ok "")) Scenario.report
         "secret" Scenario.gone)
  = Raise (HTTPException 500
             "Failed to unlock PDF: [Errno 2] No such file or directory: '/tmp/tmpk3x9/00000000-0000-4000-8000-000000000000.pdf'").
Proof. reflexivity. Qed.

(** ** Which steps of a handler issue paths *)

Section Quiet.

Context {S T : Type} (obs : S -> T).

Lemma quiet_ret {A} (a : A) : quiet obs (ret a).
Proof. by intros s. Qed.

Lemma quiet_raise {A} e : quiet obs (@raise S A e).
Proof. by intros s. Qed.

Lemma quiet_lift_outcome {A} (r : Outcome A) : quiet obs (lift_outcome r).
Proof. by intros s. Qed.

Lemma quiet_bind {A B} (m : M S A) (k : A -> M S B) :
  quiet obs m -> (forall a, quiet obs (k a)) -> quiet obs (bind m k).
Proof.
  intros Hm Hk s. unfold bind. specialize (Hm s).
  destruct (m s) as [[a|e] s1]; simpl in *; [|done].
  by rewrite Hk.
Qed.

Lemma quiet_try_except {A} (m : M S A) (h : exn -> M S A) :
  quiet obs m -> (forall e, quiet obs (h e)) -> quiet obs (try_except m h).
Proof.
  intros Hm Hh s. unfold try_except. specialize (Hm s).
  destruct (m s) as [[a|e] s1]; simpl in *; [done|].
  by rewrite Hh.
Qed.

Lemma quiet_try_finally {A} (m : M S A) (fin : M S unit) :
  quiet obs m -> quiet obs fin -> quiet obs (try_finally m fin).
Proof.
  intros Hm Hf s. unfold try_finally. specialize (Hm s).
  destruct (m s) as [r s1]. specialize (Hf s1).
  destruct (fin s1) as [[[]|e] s2]; simpl in *; congruence.
Qed.

Lemma quiet_for_each {A} (xs : list A) (body : A -> M S unit) :
  (forall x, quiet obs (body x)) -> quiet obs (for_each xs body).
Proof.
  intros Hb. induction xs as [|x xs IH]; simpl.
  - apply quiet_ret.
  - apply quiet_bind; auto.
Qed.

Lemma quiet_modify (f : S -> S) : (forall s, obs (f s) = obs s) -> quiet obs (modify f).
Proof. intros Hf s. apply Hf. Qed.

End Quiet.

Lemma quiet_lift {A} (m : M World A) :
  quiet ledger m -> quiet frame_ledger (lift m).
Proof.
  intros Hm f. unfold lift. specialize (Hm (world f)).
  by destruct (m (world f)) as [r w'].
Qed.

(** The primitive operations on the environment are quiet. *)
Section QuietWorld.

Lemma quiet_write_file p d : quiet ledger (write_file p d).
Proof.
  intros w. unfold write_file.
  destruct (scratch_dir w); [|done|];
    (destruct (files w !! p) as [e|]; [|done]);
    by destruct (negb (is_regular e)), (locked e).
Qed.

Lemma quiet_read_file p : quiet ledger (read_file p).
Proof.
  intros w. unfold read_file.
  destruct (scratch_dir w); [|done|];
    (destruct (files w !! p) as [e|]; [|done]); by destruct (is_regular e).
Qed.

Lemma quiet_peek p : quiet ledger (peek p).
Proof. intros w. unfold peek. by destruct (read_file p w) as [[d|e] w']. Qed.

Lemma quiet_logger_info msg : quiet ledger (logger_info msg).
Proof. by intros w. Qed.

Lemma quiet_logger_error msg : quiet ledger (logger_error msg).
Proof. by intros w. Qed.

Lemma quiet_release p : quiet ledger (release p).
Proof.
  intros w. destruct (release_outcome p w) as [->|[-> _]]; done.
Qed.

End QuietWorld.

Create HintDb quiet discriminated.
#[export] Hint Resolve quiet_ret quiet_raise quiet_lift_outcome quiet_write_file
  quiet_read_file quiet_peek quiet_logger_info quiet_logger_error quiet_release
  : quiet.

(** Decomposes a goal [quiet obs m] along the structure of [m]. *)
Ltac quiet_step :=
  cbv zeta;
  first
    [ solve [auto with quiet]
    | apply quiet_lift
    | apply quiet_bind; [|intros ?]
    | apply quiet_try_except; [|intros ?]
    | apply quiet_for_each; intros ?
    | apply quiet_modify; intros ?; reflexivity
    | match goal with
      | |- quiet _ (if ?c then _ else _) => destruct c
      | |- quiet _ (match ?x with _ => _ end) => destruct x
      end ].
Ltac quiet_tac := repeat quiet_step.

Lemma quiet_local_input_path : quiet frame_ledger local_input_path.
Proof. intros f. unfold local_input_path. by destruct (input_path f). Qed.

Lemma quiet_local_output_path : quiet frame_ledger local_output_path.
Proof. intros f. unfold local_output_path. by destruct (output_path f). Qed.

Lemma quiet_cleanup_block : quiet frame_ledger cleanup_block.
Proof.
  unfold cleanup_block.
  pose proof quiet_local_input_path. pose proof quiet_local_output_path.
  quiet_tac.
Qed.

Lemma quiet_save_upload p f : quiet frame_ledger (save_upload p f).
Proof. unfold save_upload. quiet_tac. Qed.

Lemma quiet_adobe_call op p q : quiet frame_ledger (adobe_call op p q).
Proof. unfold adobe_call. quiet_tac. Qed.

Lemma quiet_reraise_or_500 {A} l d e :
  quiet frame_ledger (@reraise_or_500 A l d e).
Proof. unfold reraise_or_500. quiet_tac. Qed.

#[export] Hint Resolve quiet_local_input_path quiet_local_output_path
  quiet_cleanup_block quiet_save_upload quiet_adobe_call quiet_reraise_or_500
  : quiet.

Section Plan.

Variable TEMP_DIR : string.
Variable ext : Externals.

Lemma issues_quiet {A} (m : M Frame A) : quiet frame_ledger m -> issues TEMP_DIR ext m [].
Proof.
  intros Hm f. specialize (Hm f). destruct (m f) as [r f']. simpl in Hm.
  injection Hm as Hd Hi. exists 0%nat. simpl.
  rewrite Hd, Hi, app_nil_r. split; [lia|]. split; [done|]. split; [lia|done].
Qed.

Lemma issues_raise {A} e extensions : issues TEMP_DIR ext (@raise Frame A e) extensions.
Proof.
  intros f. exists 0%nat. simpl. rewrite app_nil_r.
  split; [lia|]. split; [discriminate|]. split; [lia|done].
Qed.

Lemma issues_bind_quiet {A B} (m : M Frame A) (k : A -> M Frame B) extensions :
  quiet frame_ledger m -> (forall a, issues TEMP_DIR ext (k a) extensions) ->
  issues TEMP_DIR ext (bind m k) extensions.
Proof.
  intros Hm Hk f. unfold bind. specialize (Hm f).
  destruct (m f) as [[a|e] f1]; simpl in Hm; injection Hm as Hd Hi.
  - specialize (Hk a f1). destruct (k a f1) as [r f'].
    destruct Hk as (n & ? & ? & ? & ?). exists n. by rewrite <- Hd, <- Hi.
  - exists 0%nat. simpl. rewrite Hd, Hi, app_nil_r.
    split; [lia|]. split; [discriminate|]. split; [lia|done].
Qed.

Lemma issues_after_create {B} (f1 : Frame -> string -> Frame) (k : M Frame B)
    e extensions f :
  (forall f p, world (f1 f p) = world f) ->
  issues TEMP_DIR ext k extensions ->
  let p := scratch_path TEMP_DIR ext (draws (world f)) e in
  let w1 := add_issued p (set_draws (S (draws (world f))) (world f)) in
  match k (f1 (mkFrame w1 (input_path f) (output_path f)) p) with
  | (r, f') =>
      exists n : nat,
        (1 <= n <= S (length extensions))%nat
        /\ (forall a, r = Ok a -> n = S (length extensions))
        /\ draws (world f') = (draws (world f) + n)%nat
        /\ issued (world f')
           = issued (world f) ++ take n (plan TEMP_DIR ext (draws (world f)) (e :: extensions))
  end.
Proof.
  intros Hf1 Hk p w1.
  specialize (Hk (f1 (mkFrame w1 (input_path f) (output_path f)) p)).
  destruct (k _) as [r f']. destruct Hk as (n & Hn & Hok & Hd & Hi).
  rewrite Hf1 in Hd, Hi. simpl in Hd, Hi.
  exists (S n). repeat split; try lia.
  - intros a Ha. by rewrite (Hok a Ha).
  - rewrite Hi. simpl. by rewrite <- app_assoc.
Qed.

Lemma issues_bind_output {B} (k : string -> M Frame B) e extensions :
  (forall p, issues TEMP_DIR ext (k p) extensions) ->
  issues TEMP_DIR ext (bind (assign_output_path (create_temp_file TEMP_DIR ext e)) k)
         (e :: extensions).
Proof.
  intros Hk f.
  pose proof (issues_after_create
                (fun f p => mkFrame (world f) (input_path f) (Some p))
                (k (scratch_path TEMP_DIR ext (draws (world f)) e))
                e extensions f (fun _ _ => eq_refl) (Hk _)) as H.
  cbv zeta in H. change (bind _ k f) with
    (k (scratch_path TEMP_DIR ext (draws (world f)) e)
       (mkFrame (add_issued (scratch_path TEMP_DIR ext (draws (world f)) e)
                   (set_draws (S (draws (world f))) (world f)))
          (input_path f) (Some (scratch_path TEMP_DIR ext (draws (world f)) e)))).
  simpl in H. destruct (k _ _) as [r f'].
  destruct H as (n & ? & ? & ? & ?). exists n. repeat split; auto. simpl. lia.
Qed.

(** Every handler has this shape: the first statement of its [try] issues
    the input path, and its [finally] is the shared cleanup block. *)
Lemma handler_issues {A} e extensions (K : string -> M Frame A)
    (H : exn -> M Frame A) w :
  (forall p, issues TEMP_DIR ext (K p) extensions) ->
  (forall x, quiet frame_ledger (H x)) ->
  match in_frame
          (try_finally
             (try_except
                (bind (assign_input_path (create_temp_file TEMP_DIR ext e)) K) H)
             cleanup_block) w with
  | (r, w') =>
      exists n : nat,
        (1 <= n <= S (length extensions))%nat
        /\ draws w' = (draws w + n)%nat
        /\ issued w' = issued w ++ take n (plan TEMP_DIR ext (draws w) (e :: extensions))
  end.
Proof.
  intros HK HH. unfold in_frame, try_finally, try_except.
  pose proof (issues_after_create
                (fun f p => mkFrame (world f) (Some p) (output_path f))
                (K (scratch_path TEMP_DIR ext (draws w) e))
                e extensions (mkFrame w None None) (fun _ _ => eq_refl) (HK _)) as H1.
  cbv zeta in H1. simpl in H1.
  change (bind _ K (mkFrame w None None)) with
    (K (scratch_path TEMP_DIR ext (draws w) e)
       (mkFrame (add_issued (scratch_path TEMP_DIR ext (draws w) e)
                   (set_draws (S (draws w)) w))
          (Some (scratch_path TEMP_DIR ext (draws w) e)) None)).
  destruct (K _ _) as [r f1]. destruct H1 as (n & Hn & _ & Hd & Hi).
  assert (exists r2 f2, (match r with
                         | Ok a => (Ok a, f1)
                         | Raise x => H x f1
                         end) = (r2, f2)
                        /\ frame_ledger f2 = frame_ledger f1) as (r2 & f2 & -> & H2).
  { destruct r as [a|x]; [by eexists _, _|].
    specialize (HH x f1). destruct (H x f1) as [r2 f2]. by eexists _, _. }
  pose proof (quiet_cleanup_block f2) as H3.
  destruct (cleanup_block f2) as [[[]|x] f3]; simpl in H3;
    rewrite H2 in H3; injection H3 as Hd3 Hi3; simpl;
    exists n; rewrite Hd3, Hi3; auto.
Qed.

End Plan.

(** Decomposes a goal [issues m extensions] along the structure of [m]. *)
Ltac issues_step :=
  cbv zeta;
  first
    [ apply issues_bind_output; intros ?
    | apply issues_bind_quiet; [solve [quiet_tac] | intros ?]
    | apply issues_raise
    | apply issues_quiet; solve [quiet_tac]
    | match goal with
      | |- issues _ _ (if ?c then _ else _) _ => destruct c
      end ].
Ltac issues_tac := repeat issues_step.

Section Handlers.

Variable TEMP_DIR : string.
Variable ext : Externals.

Lemma handle_rejected ep r w :
  accepted ep r = false ->
  exists detail, handle TEMP_DIR ext ep r w = (Raise (HTTPException 400 detail), w).
Proof.
  unfold accepted. intros H.
  destruct (validate_pdf_file (upload r)) eqn:E1.
  - destruct (validate_file_size (size (upload r))) eqn:E2.
    + destruct ep; try discriminate. simpl in H.
      unfold handle, adobe_compress_pdf. rewrite E1, E2, H. simpl.
      eexists. reflexivity.
    + destruct ep; unfold handle, unlock_pdf_legacy, lock_pdf_legacy,
        remove_pdf_links_legacy, adobe_convert_pdf_to_word,
        adobe_convert_pdf_to_excel, adobe_compress_pdf, adobe_optimize_pdf,
        adobe_extract_text; rewrite E1, E2; simpl; eexists; reflexivity.
  - destruct ep; unfold handle, unlock_pdf_legacy, lock_pdf_legacy,
      remove_pdf_links_legacy, adobe_convert_pdf_to_word,
      adobe_convert_pdf_to_excel, adobe_compress_pdf, adobe_optimize_pdf,
      adobe_extract_text; rewrite E1; simpl; eexists; reflexivity.
Qed.

Lemma handle_accepted ep r w :
  accepted ep r = true ->
  match handle TEMP_DIR ext ep r w with
  | (_, w') =>
      exists n : nat,
        (1 <= n <= 2)%nat
        /\ draws w' = (draws w + n)%nat
        /\ issued w' = issued w ++ take n (plan TEMP_DIR ext (draws w) (extensions ep))
  end.
Proof.
  unfold accepted. intros H.
  apply andb_true_iff in H as [H H3]. apply andb_true_iff in H as [H1 H2].
  destruct ep; simpl;
    unfold unlock_pdf_legacy, lock_pdf_legacy, remove_pdf_links_legacy,
      adobe_convert_pdf_to_word, adobe_convert_pdf_to_excel, adobe_compress_pdf,
      adobe_optimize_pdf, adobe_extract_text;
    rewrite H1, H2; simpl; try rewrite H3; simpl;
    apply (handler_issues TEMP_DIR ext _ [_]);
    try (intros ?; solve [issues_tac]); try (intros ?; solve [quiet_tac]).
Qed.

Lemma issued_by_plan ep r w :
  exists n : nat,
    issued_by TEMP_DIR ext ep r w = take n (plan TEMP_DIR ext (draws w) (extensions ep)).
Proof.
  unfold issued_by. destruct (accepted ep r) eqn:Ha.
  - pose proof (handle_accepted ep r w Ha) as H.
    destruct (handle TEMP_DIR ext ep r w) as [res w'].
    destruct H as (n & _ & _ & Hi). exists n. simpl.
    by rewrite Hi, drop_app_length.
  - destruct (handle_rejected ep r w Ha) as [detail ->]. exists 0%nat. simpl.
    by rewrite drop_all.
Qed.

Lemma accepted_false_iff ep r :
  accepted ep r = false
  <-> ~ pdf_suffix (filename (upload r))
      \/ size (upload r) > MAX_FILE_SIZE
      \/ (ep = AdobeCompressPdf /\ compression_level r ∉ compression_levels).
Proof.
  unfold accepted. rewrite !andb_false_iff, <- not_true_iff_false.
  rewrite validate_pdf_file_iff. unfold validate_file_size.
  rewrite Z.leb_gt. split.
  - intros [[H|H]|H]; [by left|right; left; lia|].
    right. right. destruct ep; try discriminate.
    split; [done|]. by apply bool_decide_eq_false in H.
  - intros [H|[H|[-> H]]]; [by left; left|left; right; lia|].
    right. by apply bool_decide_eq_false.
Qed.

(** C10 (amended).  An endpoint answers with status 400 without having
    issued a path or touched the scratch directory exactly when the
    filename does not end, in any letter case, with ".pdf", or the
    declared size strictly exceeds 52428800 bytes, or, for the compress
    endpoint, the compression level is not one of low, medium and high.
    A declared size of exactly 52428800 bytes passes the size check, and
    the bytes of the upload have no influence. *)
Theorem early_reject_iff (ep : Endpoint) (r : Request) (w : World) :
  (early_reject TEMP_DIR ext ep r w
   <-> ~ pdf_suffix (filename (upload r))
       \/ size (upload r) > 52428800
       \/ (ep = AdobeCompressPdf /\ compression_level r ∉ compression_levels))
  /\ validate_file_size 52428800 = true
  /\ (forall bytes,
        early_reject TEMP_DIR ext ep (with_content bytes r) w
        <-> early_reject TEMP_DIR ext ep r w).
Proof.
  assert (Hiff : forall r', early_reject TEMP_DIR ext ep r' w <-> accepted ep r' = false).
  { intros r'. split.
    - intros [detail H]. destruct (accepted ep r') eqn:Ha; [|done].
      pose proof (handle_accepted ep r' w Ha) as H'. rewrite H in H'.
      destruct H' as (n & Hn & Hd & _). lia.
    - apply handle_rejected. }
  split; [|split; [done|]].
  - rewrite Hiff. apply accepted_false_iff.
  - intros bytes. rewrite !Hiff. by destruct ep.
Qed.

End Handlers.

(** A file of exactly 50 MiB named in upper case is not rejected. *)
Lemma early_reject_iff_witness :
  ~ early_reject Scenario.tmp (Scenario.libs (Ok "")) UnlockPdf
      (Scenario.request (mkUploadFile "SCAN.PDF" 52428800 "%PDF-1.7") "medium")
      Scenario.idle.
Proof.
  intros H.
  apply (proj1 (early_reject_iff Scenario.tmp (Scenario.libs (Ok "")) UnlockPdf
                  (Scenario.request (mkUploadFile "SCAN.PDF" 52428800 "%PDF-1.7")
                     "medium")
                  Scenario.idle)) in H.
  destruct H as [H|[H|[H _]]].
  - apply H. exists "SCAN", "P"%char, "D"%char, "F"%char. auto.
  - simpl in H. lia.
  - discriminate.
Defined.

(** The compress endpoint answers 400, before issuing anything, to a PDF
    of admissible size whose compression level is unknown. *)
Lemma early_reject_iff_counterexample :
  ~ (early_reject Scenario.tmp (Scenario.libs (Ok "")) AdobeCompressPdf
       (Scenario.request Scenario.report "extreme") Scenario.idle
     <-> ~ pdf_suffix (filename (upload (Scenario.request Scenario.report "extreme")))
         \/ size (upload (Scenario.request Scenario.report "extreme")) > 52428800).
Proof.
  intros [H _]. destruct H as [H|H].
  - eexists. reflexivity.
  - apply H. exists "report", "p"%char, "d"%char, "f"%char. auto.
  - simpl in H. lia.
Qed.

(** ** What the cleanup blocks leave behind *)

Section Cleanup.

Variable TEMP_DIR : string.
Variable ext : Externals.

Lemma write_file_fresh p d w :
  scratch_dir w = DirAvailable -> files w !! p = None ->
  write_file p d w = (Ok tt, set_files (insert p (mkEntry true (now w) d false)) w).
Proof. intros Hd Hf. unfold write_file. by rewrite Hd, Hf. Qed.

Lemma peek_written p e w :
  scratch_dir w = DirAvailable -> files w !! p = Some e -> is_regular e = true ->
  peek p w = (Ok (Some (data e)), w).
Proof. intros Hd Hf Hr. unfold peek, read_file. by rewrite Hd, Hf, Hr. Qed.

(** C1 (the code departs from it).  When the OCR step of the
    text-extraction handler yields no text or raises, [output_path] is
    still unassigned when the [finally] block builds its list: the block
    raises [UnboundLocalError] before it releases anything, the handler
    ends with that exception, and the uploaded file stays at the input
    path. *)
Theorem extract_text_failure (f : UploadFile) (w : World) :
  validate_pdf_file f = true ->
  validate_file_size (size f) = true ->
  scratch_dir w = DirAvailable ->
  files w !! scratch_path TEMP_DIR ext (draws w) ".pdf" = None ->
  match extract_text_with_ocr ext (Some (file f)) with
  | Ok text => Py.truthy text = false
  | Raise _ => True
  end ->
  exists w',
    adobe_extract_text TEMP_DIR ext f w = (Raise (UnboundLocalError "output_path"), w')
    /\ files w' !! scratch_path TEMP_DIR ext (draws w) ".pdf"
       = Some (mkEntry true (now w) (file f) false).
Proof.
  intros Hv1 Hv2 Hd Hf Hocr.
  set (p := scratch_path TEMP_DIR ext (draws w) ".pdf") in *.
  set (w1 := add_issued p (set_draws (S (draws w)) w)).
  set (w2 := set_files (insert p (mkEntry true (now w) (file f) false)) w1).
  assert (Hw : write_file p (file f) w1 = (Ok tt, w2)) by by apply write_file_fresh.
  assert (Hp : peek p w2 = (Ok (Some (file f)), w2)).
  { apply (peek_written p (mkEntry true (now w) (file f) false)); [done| |done].
    apply lookup_insert_eq. }
  assert (Hw2 : files w2 !! p = Some (mkEntry true (now w) (file f) false))
    by apply lookup_insert_eq.
  cbv beta iota zeta delta
    [adobe_extract_text in_frame try_finally try_except bind assign_input_path
     lift modify ret raise save_upload lift_outcome create_temp_file uuid_uuid4
     cleanup_block local_input_path local_output_path reraise_or_500
     logger_error world input_path output_path].
  rewrite Hv1, Hv2. cbv beta iota delta [negb].
  change (os.path_join TEMP_DIR
            (uuid.str (uuid.uuid4_int (os_urandom16 ext (draws w))) +:+ ".pdf"))
    with p.
  change (add_issued p _) with w1.
  rewrite Hw. cbv beta iota. rewrite Hp. cbv beta iota.
  destruct (extract_text_with_ocr ext (Some (file f))) as [text|e].
  - rewrite Hocr. cbv beta iota. by exists w2.
  - cbv beta iota. destruct e; cbv beta iota; eexists; (split; [reflexivity|]);
      exact Hw2.
Qed.

Lemma release_present p e w :
  scratch_dir w = DirAvailable -> files w !! p = Some e ->
  is_regular e = true -> locked e = false ->
  release p w = (Ok tt, set_files (delete p) w).
Proof.
  intros Hd Hf Hr Hl.
  assert (Hrm : os.remove p w = (Ok tt, set_files (delete p) w)).
  { unfold os.remove. by rewrite Hd, Hf, Hr, Hl. }
  assert (Hex : os.path_exists p w = true).
  { unfold os.path_exists. rewrite Hd, Hf. apply bool_decide_eq_true_2. eauto. }
  unfold release, bind, path_exists, try_except. by rewrite Hex, Hrm.
Qed.

Lemma read_file_present p e w :
  scratch_dir w = DirAvailable -> files w !! p = Some e -> is_regular e = true ->
  read_file p w = (Ok (data e), w).
Proof. intros Hd Hf Hr. unfold read_file. by rewrite Hd, Hf, Hr. Qed.

(** C2 (the code departs from it).  A successful unlock returns a response
    that names the output path, and the [finally] block has deleted the
    file at that path before the handler hands the response over: the
    scratch directory is as it was before the request, and the body of
    the response cannot be produced. *)
Theorem unlock_success_deletes_output (f : UploadFile) (password : string)
    (w : World) pdf saved :
  let p := scratch_path TEMP_DIR ext (draws w) ".pdf" in
  let q := scratch_path TEMP_DIR ext (S (draws w)) ".pdf" in
  validate_pdf_file f = true ->
  validate_file_size (size f) = true ->
  scratch_dir w = DirAvailable ->
  files w !! p = None -> files w !! q = None -> p <> q ->
  pikepdf_open ext (file f) password = Ok pdf ->
  pikepdf_save ext pdf None = Ok saved ->
  exists w',
    unlock_pdf_legacy TEMP_DIR ext f password w
    = (Ok (mkFileResponse q ("unlocked_" +:+ filename f) "application/pdf"), w')
    /\ files w' = files w
    /\ response_body (mkFileResponse q ("unlocked_" +:+ filename f) "application/pdf") w'
       = None.
Proof.
  intros p q Hv1 Hv2 Hd Hp Hq Hpq Hopen Hsave.
  set (ein := mkEntry true (now w) (file f) false).
  set (eout := mkEntry true (now w) saved false).
  set (w1 := add_issued q (set_draws (S (S (draws w)))
                             (add_issued p (set_draws (S (draws w)) w)))).
  set (w2 := set_files (insert p ein) w1).
  set (w3 := set_files (insert q eout) w2).
  set (w4 := add_log (INFO ("Successfully unlocked " +:+ filename f)) w3).
  assert (H1 : write_file p (file f) w1 = (Ok tt, w2)) by by apply write_file_fresh.
  assert (H2 : read_file p w2 = (Ok (file f), w2)).
  { apply (read_file_present p ein); [done| |done]. apply lookup_insert_eq. }
  assert (H3 : write_file q saved w2 = (Ok tt, w3)).
  { apply write_file_fresh; [done|]. simpl. by rewrite lookup_insert_ne. }
  assert (H4 : release p w4 = (Ok tt, set_files (delete p) w4)).
  { apply (release_present p ein); [done| |done..]. simpl.
    rewrite lookup_insert_ne by done. apply lookup_insert_eq. }
  assert (H5 : release q (set_files (delete p) w4)
               = (Ok tt, set_files (delete q) (set_files (delete p) w4))).
  { apply (release_present q eout); [done| |done..]. simpl.
    rewrite lookup_delete_ne by done. apply lookup_insert_eq. }
  assert (Hfiles : files (set_files (delete q) (set_files (delete p) w4)) = files w).
  { simpl. apply map_eq. intros k.
    destruct (decide (k = q)) as [->|Hkq]; [by rewrite lookup_delete_eq|].
    rewrite lookup_delete_ne by done.
    destruct (decide (k = p)) as [->|Hkp]; [by rewrite lookup_delete_eq|].
    by rewrite lookup_delete_ne, !lookup_insert_ne. }
  exists (set_files (delete q) (set_files (delete p) w4)).
  split; [|split; [exact Hfiles|]].
  - cbv beta iota zeta delta
      [unlock_pdf_legacy in_frame try_finally try_except bind assign_input_path
       assign_output_path lift modify ret raise save_upload lift_outcome
       create_temp_file uuid_uuid4 cleanup_block local_input_path
       local_output_path logger_info for_each world input_path output_path].
    rewrite Hv1, Hv2. cbv beta iota delta [negb].
    change (add_issued (os.path_join _ _) (set_draws _ (add_issued _ _))) with w1.
    change (os.path_join TEMP_DIR
              (uuid.str (uuid.uuid4_int (os_urandom16 ext (draws w))) +:+ ".pdf"))
      with p.
    change (os.path_join TEMP_DIR _) with q.
    rewrite H1. cbv beta iota. rewrite H2. cbv beta iota.
    rewrite Hopen, Hsave. rewrite H3. cbv beta iota.
    change (add_log _ w3) with w4. rewrite H4. cbv beta iota. rewrite H5.
    reflexivity.
  - unfold response_body, read_file. simpl path. rewrite Hfiles, Hq.
    by destruct (scratch_dir _).
Qed.

End Cleanup.

Lemma extract_text_failure_witness :
  exists w',
    adobe_extract_text Scenario.tmp (Scenario.libs (Ok "")) Scenario.report Scenario.idle
    = (Raise (UnboundLocalError "output_path"), w')
    /\ files w' !! "/tmp/tmpk3x9/00000000-0000-4000-8000-000000000000.pdf"
       = Some (mkEntry true 0 "%PDF-1.7" false).
Proof.
  apply (extract_text_failure Scenario.tmp (Scenario.libs (Ok "")) Scenario.report
           Scenario.idle); reflexivity.
Defined.

(** The same when the OCR step raises. *)
Example extract_text_raise_leaks :
  let '(r, w') := adobe_extract_text Scenario.tmp
                    (Scenario.libs (Raise (OtherException "quota exceeded")))
                    Scenario.report Scenario.idle in
  r = Raise (UnboundLocalError "output_path")
  /\ os.path_exists "/tmp/tmpk3x9/00000000-0000-4000-8000-000000000000.pdf" w' = true.
Proof. vm_compute. split; reflexivity. Qed.

Lemma unlock_success_deletes_output_witness :
  exists w',
    unlock_pdf_legacy Scenario.tmp (Scenario.libs (Ok "")) Scenario.report "secret"
      Scenario.idle
    = (Ok (mkFileResponse "/tmp/tmpk3x9/00000000-0000-4000-8000-000000000001.pdf"
             "unlocked_report.pdf" "application/pdf"), w')
    /\ files w' = files Scenario.idle
    /\ response_body
         (mkFileResponse "/tmp/tmpk3x9/00000000-0000-4000-8000-000000000001.pdf"
            "unlocked_report.pdf" "application/pdf") w' = None.
Proof.
  apply (unlock_success_deletes_output Scenario.tmp (Scenario.libs (Ok ""))
           Scenario.report "secret" Scenario.idle tt "%PDF-saved");
    try reflexivity.
  vm_compute. discriminate.
Defined.

(** Every endpoint, on a request that its collaborators serve without
    error: the response names a file that no longer exists. *)
Example every_success_deletes_response_file (ep : Endpoint) :
  let '(r, w') := handle Scenario.tmp (Scenario.libs (Ok "some text")) ep
                    (Scenario.request Scenario.report "medium") Scenario.idle in
  exists resp, r = Ok resp /\ response_body resp w' = None.
Proof. destruct ep; vm_compute; eexists; split; reflexivity. Qed.

(** ** Names of the converted files *)

(** X11.  The name given to a converted file always ends with the suffix of
    the target format, whatever the uploaded filename. *)
Theorem converted_filename_endswith (f : UploadFile) (suffix : string) :
  Py.endswith (converted_filename f suffix) suffix = true.
Proof.
  unfold converted_filename. cbv zeta.
  destruct (Py.endswith (Py.replace (filename f) ".pdf" suffix) suffix) eqn:He;
    simpl; [done|].
  apply endswith_iff. by eexists.
Qed.

Lemma replace_absent old new s :
  Py.contains old s = false -> Py.replace s old new = s.
Proof.
  unfold Py.replace. induction s as [|c s IH]; [done|].
  intros H. cbn [Py.contains] in H. apply orb_false_iff in H as [Hp Hc].
  cbn [Py.replace_from]. rewrite Hp. by rewrite IH.
Qed.

(** X13.  The replacement of ".pdf" is case-sensitive: a filename in which
    ".pdf" does not occur in lower case, such as "SCAN.PDF", is kept whole
    and the suffix is appended to it, unless it already ends with the
    suffix. *)
Theorem converted_filename_without_lowercase_pdf (f : UploadFile) (suffix : string) :
  Py.contains ".pdf" (filename f) = false ->
  converted_filename f suffix
  = if Py.endswith (filename f) suffix then filename f else filename f +:+ suffix.
Proof.
  intros H. unfold converted_filename. cbv zeta. rewrite (replace_absent _ _ _ H).
  by destruct (Py.endswith (filename f) suffix).
Qed.

Lemma prefix_pdf_app s :
  s <> "" -> String.prefix ".pdf" (s +:+ ".pdf") = String.prefix ".pdf" s.
Proof.
  intros Hs.
  destruct s as [|c1 [|c2 [|c3 [|c4 s]]]]; [done|..];
    rewrite ?str_app_cons; cbn -[ascii_dec];
    repeat (match goal with
            | |- context [ascii_dec ?a ?b] => destruct (ascii_dec a b); try subst
            end; try done).
  all: by destruct s.
Qed.

Lemma replace_pdf_stem stem new :
  Py.contains ".pdf" stem = false ->
  Py.replace (stem +:+ ".pdf") ".pdf" new = stem +:+ new.
Proof.
  unfold Py.replace. induction stem as [|c stem IH]; intros H.
  - change (new +:+ "" = new). apply str_app_nil_r.
  - cbn [Py.contains] in H. apply orb_false_iff in H as [Hp Hc].
    rewrite !str_app_cons. cbn [Py.replace_from].
    rewrite <- str_app_cons, prefix_pdf_app, Hp by done.
    by rewrite IH.
Qed.

(** X12.  For a filename made of a stem without ".pdf" followed by ".pdf",
    the converted file is named by the stem followed by the suffix. *)
Theorem converted_filename_of_pdf (stem suffix : string) (size : Z) (bytes : string) :
  Py.contains ".pdf" stem = false ->
  converted_filename (mkUploadFile (stem +:+ ".pdf") size bytes) suffix
  = stem +:+ suffix.
Proof.
  intros H. unfold converted_filename. cbv zeta. simpl filename.
  rewrite (replace_pdf_stem _ _ H).
  assert (He : Py.endswith (stem +:+ suffix) suffix = true)
    by (apply endswith_iff; by eexists).
  by rewrite He.
Qed.

Lemma converted_filename_without_lowercase_pdf_witness :
  converted_filename (mkUploadFile "SCAN.PDF" 1024 "%PDF-1.7") ".docx" = "SCAN.PDF.docx".
Proof.
  apply (converted_filename_without_lowercase_pdf
           (mkUploadFile "SCAN.PDF" 1024 "%PDF-1.7") ".docx").
  reflexivity.
Defined.

Lemma converted_filename_of_pdf_witness :
  converted_filename (mkUploadFile "my.report.pdf" 1024 "%PDF-1.7") ".xlsx"
  = "my.report.xlsx".
Proof.
  apply (converted_filename_of_pdf "my.report" ".xlsx" 1024 "%PDF-1.7").
  reflexivity.
Defined.

(** Every occurrence of ".pdf" is replaced, not only the last one. *)
Example converted_filename_replaces_all :
  converted_filename (mkUploadFile "a.pdf.pdf" 1 "") ".txt" = "a.txt.txt".
Proof. reflexivity. Qed.

(** ** File extensions *)

Lemma rfind_from_range sub s i found :
  Py.rfind_from sub s i found = found
  \/ i <= Py.rfind_from sub s i found <= i + Z.of_nat (String.length s).
Proof.
  revert i found. induction s as [|c s IH]; intros i found.
  - cbn [Py.rfind_from String.length]. destruct (String.prefix sub ""); [right; lia|by left].
  - cbn [Py.rfind_from String.length].
    destruct (IH (i + 1) (if String.prefix sub (String c s) then i else found))
      as [->|H].
    + destruct (String.prefix sub (String c s)); [right; lia|by left].
    + right. lia.
Qed.

Lemma rfind_from_absent sub s i found :
  Py.contains sub s = false -> Py.rfind_from sub s i found = found.
Proof.
  revert i found. induction s as [|c s IH]; intros i found H;
    cbn [Py.contains] in H; apply orb_false_iff in H as [Hp Hc];
    cbn [Py.rfind_from]; rewrite Hp; [done|]. by apply IH.
Qed.

Lemma prefix_char c a s :
  String.prefix (String c "") (String a s) = bool_decide (c = a).
Proof.
  cbn -[ascii_dec]. destruct (ascii_dec c a).
  - rewrite bool_decide_eq_true_2 by done. by destruct s.
  - by rewrite bool_decide_eq_false_2.
Qed.

Lemma rfind_char_app c s t i found :
  Py.rfind_from (String c "") (s +:+ t) i found
  = Py.rfind_from (String c "") t (i + Z.of_nat (String.length s))
      (Py.rfind_from (String c "") s i found).
Proof.
  revert i found. induction s as [|a s IH]; intros i found.
  - change ("" +:+ t) with t. simpl. by rewrite Z.add_0_r.
  - rewrite str_app_cons. cbn [Py.rfind_from String.length].
    rewrite !prefix_char, IH. f_equal. lia.
Qed.

Lemma substring_none s : substring 0 0 s = "".
Proof. by destruct s. Qed.

Lemma substring_app_l stem s :
  substring 0 (String.length stem) (stem +:+ s) = stem.
Proof.
  induction stem as [|c stem IH]; [apply substring_none|].
  rewrite str_app_cons. simpl. by rewrite IH.
Qed.

Lemma splitext_join p :
  fst (os.path_splitext p) +:+ snd (os.path_splitext p) = p.
Proof.
  unfold os.path_splitext. cbv zeta.
  destruct (_ && _) eqn:Hc; simpl.
  - apply andb_true_iff in Hc as [Hgt _]. apply Z.gtb_gt in Hgt.
    unfold Py.slice_to, Py.slice_from. symmetry. apply substring_split.
    unfold Py.rfind in *.
    destruct (rfind_from_range "/" p 0 (-1)) as [Hs|Hs],
             (rfind_from_range "." p 0 (-1)) as [Hd|Hd]; lia.
  - unfold Py.slice_to. simpl. by rewrite substring_none, str_app_nil_r.
Qed.

Lemma lower_idemp s : Py.lower (Py.lower s) = Py.lower s.
Proof.
  induction s as [|c s IH]; [done|]. simpl. rewrite IH. f_equal.
  destruct c as [[] [] [] [] [] [] [] []]; reflexivity.
Qed.

Lemma isascii_app s t : Py.isascii (s +:+ t) = Py.isascii s && Py.isascii t.
Proof.
  induction s as [|c s IH]; [done|].
  rewrite str_app_cons. cbn [Py.isascii]. by rewrite IH, andb_assoc.
Qed.

Lemma isascii_lower s : Py.isascii (Py.lower s) = Py.isascii s.
Proof.
  induction s as [|c s IH]; [done|].
  cbn [Py.lower Py.isascii]. rewrite IH. f_equal.
  by destruct c as [[] [] [] [] [] [] [] []].
Qed.

(** X14.  For an ASCII filename, the extension that [get_file_extension]
    returns is an ASCII string in lower case and an ending of the
    lower-cased filename. *)
Theorem extension_is_suffix (filename : string) :
  Py.isascii filename = true ->
  Py.endswith (Py.lower filename) (get_file_extension filename) = true
  /\ Py.lower (get_file_extension filename) = get_file_extension filename
  /\ Py.isascii (get_file_extension filename) = true.
Proof.
  intros Ha. split; [|split].
  - apply endswith_iff. exists (Py.lower (fst (os.path_splitext filename))).
    unfold get_file_extension. by rewrite <- lower_app, splitext_join.
  - apply lower_idemp.
  - unfold get_file_extension. rewrite isascii_lower.
    rewrite <- (splitext_join filename), isascii_app in Ha.
    by apply andb_true_iff in Ha as [_ Ha].
Qed.

(** X15.  [validate_image_file] accepts only filenames that end, in any
    letter case, with one of its six extensions, and [validate_word_file]
    only filenames that end with ".docx" or ".doc". *)
Theorem validators_accept_listed_suffixes_only (f : UploadFile) :
  (validate_image_file f = true ->
   exists e, e ∈ [".jpg"; ".jpeg"; ".png"; ".gif"; ".bmp"; ".webp"]
             /\ Py.endswith (Py.lower (filename f)) e = true)
  /\ (validate_word_file f = true ->
      exists e, e ∈ [".docx"; ".doc"]
                /\ Py.endswith (Py.lower (filename f)) e = true).
Proof.
  split; intros H; apply bool_decide_eq_true in H;
    (eexists; split; [exact H|]);
    apply endswith_iff; exists (Py.lower (fst (os.path_splitext (filename f))));
    unfold get_file_extension; by rewrite <- lower_app, splitext_join.
Qed.

(** A name that starts with a dot and has no other dot, such as ".png", has
    no extension. *)
Lemma splitext_dotfile stem :
  Py.contains "." stem = false -> Py.contains "/" stem = false ->
  os.path_splitext ("." +:+ stem) = ("." +:+ stem, "").
Proof.
  intros Hdot Hsep. unfold os.path_splitext, Py.rfind. cbv zeta.
  change ("." +:+ stem) with (String "." stem).
  cbn [Py.rfind_from]. rewrite !prefix_char.
  rewrite bool_decide_eq_true_2, bool_decide_eq_false_2 by done.
  rewrite !rfind_from_absent by done. simpl. unfold Py.slice_to. simpl.
  done.
Qed.

(** X16.  A filename that is a dot followed by a part without dot or
    separator, such as ".png" or ".docx", has no extension for
    [os.path.splitext]: the image and Word checks reject it, although it
    ends with a listed suffix. *)
Theorem validators_reject_dotfiles (stem : string) (size : Z) (bytes : string) :
  Py.contains "." stem = false -> Py.contains "/" stem = false ->
  validate_image_file (mkUploadFile ("." +:+ stem) size bytes) = false
  /\ validate_word_file (mkUploadFile ("." +:+ stem) size bytes) = false.
Proof.
  intros Hdot Hsep. unfold validate_image_file, validate_word_file, get_file_extension.
  simpl filename. rewrite (splitext_dotfile _ Hdot Hsep). by vm_compute.
Qed.

Lemma splitext_plain stem x :
  stem <> "" ->
  Py.contains "." stem = false -> Py.contains "/" stem = false ->
  Py.contains "." x = false -> Py.contains "/" x = false ->
  os.path_splitext (stem +:+ "." +:+ x) = (stem, "." +:+ x).
Proof.
  intros Hne Hd1 Hs1 Hd2 Hs2. unfold os.path_splitext, Py.rfind. cbv zeta.
  rewrite (rfind_char_app "." stem), (rfind_char_app "/" stem).
  rewrite (rfind_from_absent "." stem), (rfind_from_absent "/" stem) by done.
  change ("." +:+ x) with (String "." x). cbn [Py.rfind_from].
  rewrite !prefix_char.
  rewrite bool_decide_eq_true_2, bool_decide_eq_false_2 by done.
  rewrite !rfind_from_absent by done.
  assert (Hgt : (0 + Z.of_nat (String.length stem) >? -1) = true)
    by (apply Z.gtb_gt; lia).
  rewrite Hgt. simpl andb.
  assert (Hlead : os.leading_dots_end (stem +:+ String "." x)
                    (Z.to_nat (0 + Z.of_nat (String.length stem) - (-1 + 1))) (-1 + 1)
                  = true).
  { destruct stem as [|c stem]; [done|].
    replace (Z.to_nat _) with (S (String.length stem)) by (simpl String.length; lia).
    cbn [os.leading_dots_end]. rewrite str_app_cons.
    replace (String.eqb _ ".") with (Ascii.eqb c ".").
    - cbn [Py.contains] in Hd1. apply orb_false_iff in Hd1 as [Hp _].
      rewrite prefix_char in Hp. apply bool_decide_eq_false in Hp.
      destruct (Ascii.eqb_spec c "."); [congruence|done].
    - unfold Py.slice. simpl. destruct (stem +:+ String "." x); simpl;
        by destruct (Ascii.eqb c "."). }
  rewrite Hlead. unfold Py.slice_to, Py.slice_from.
  rewrite Z.add_0_l, Nat2Z.id, substring_app_l. f_equal.
  rewrite str_app_length.
  replace (String.length stem + String.length (String "." x) - String.length stem)%nat
    with (String.length (String "." x)) by lia.
  apply substring_app_r.
Qed.

(** X17.  For a filename made of a non-empty stem, a dot and a last part
    in ASCII, none of them holding a dot or a separator, the extension is
    the dot followed by the last part in lower case. *)
Theorem get_file_extension_plain (stem x : string) :
  stem <> "" ->
  Py.contains "." stem = false -> Py.contains "/" stem = false ->
  Py.contains "." x = false -> Py.contains "/" x = false ->
  Py.isascii x = true ->
  get_file_extension (stem +:+ "." +:+ x) = "." +:+ Py.lower x.
Proof.
  intros. unfold get_file_extension. by rewrite splitext_plain.
Qed.

Lemma extension_is_suffix_witness :
  Py.endswith (Py.lower "Archive.Tar.GZ") (get_file_extension "Archive.Tar.GZ") = true
  /\ Py.lower (get_file_extension "Archive.Tar.GZ") = get_file_extension "Archive.Tar.GZ"
  /\ Py.isascii (get_file_extension "Archive.Tar.GZ") = true.
Proof.
  apply (extension_is_suffix "Archive.Tar.GZ"). reflexivity.
Defined.

Lemma validators_accept_listed_suffixes_only_witness :
  exists e, e ∈ [".jpg"; ".jpeg"; ".png"; ".gif"; ".bmp"; ".webp"]
            /\ Py.endswith (Py.lower "Holiday.JPeG") e = true.
Proof.
  apply (proj1 (validators_accept_listed_suffixes_only
                  (mkUploadFile "Holiday.JPeG" 2048 "JFIF"))).
  reflexivity.
Defined.

Lemma validators_reject_dotfiles_witness :
  validate_image_file (mkUploadFile ".png" 2048 "PNG") = false
  /\ validate_word_file (mkUploadFile ".png" 2048 "PNG") = false.
Proof.
  apply (validators_reject_dotfiles "png" 2048 "PNG"); reflexivity.
Defined.

(** The PDF check looks at the ending only and accepts such a name. *)
Example validate_pdf_file_accepts_dotfile :
  validate_pdf_file (mkUploadFile ".pdf" 2048 "%PDF-1.7") = true.
Proof. reflexivity. Qed.

Lemma get_file_extension_plain_witness :
  get_file_extension "Letter.DocX" = ".docx".
Proof.
  apply (get_file_extension_plain "Letter" "DocX"); [discriminate|reflexivity..].
Defined.

(** ** Passes of the background task, one after the other *)

Section Passes.

Variable TEMP_DIR : string.

(** What a pass that ends without error has done, entry by entry. *)
Lemma cleanup_pass_exact w w' :
  cleanup_pass TEMP_DIR w = (Ok tt, w') ->
  scratch_dir w' = scratch_dir w /\ now w' = now w
  /\ scratch_dir w <> DirMissing
  /\ forall p,
       files w' !! p
       = match files w !! p with
         | Some e =>
             if reclaimable (now w) e && bool_decide (is_Some (os.child_name TEMP_DIR p))
             then None else Some e
         | None => None
         end.
Proof.
  rewrite cleanup_pass_unfold.
  destruct (decide (scratch_dir w = DirMissing)) as [Hd|Hd].
  { by rewrite (listdir_missing _ _ Hd). }
  destruct (listdir_names TEMP_DIR w Hd) as (names & -> & Hnames).
  pose proof (sweep_spec TEMP_DIR (now w) names w) as Hs. intros Hrun.
  rewrite Hrun in Hs. destruct Hs as (Hd' & Hnow & Hfiles & Hall).
  split; [done|]. split; [done|]. split; [done|]. intros p.
  destruct (files w !! p) as [e|] eqn:He.
  - destruct (reclaimable (now w) e) eqn:Hrec; simpl.
    + case_bool_decide as Hc.
      * destruct Hc as [a Hc]. rewrite <- (child_name_join _ _ _ Hc) in He |- *.
        apply (Hall eq_refl Hd a e); [|done..]. apply Hnames.
        exists p, e. split; [|done]. by rewrite <- (child_name_join _ _ _ Hc).
      * destruct (Hfiles p) as [->|(_ & e' & He' & _ & a & Ha & ->)]; [done|].
        exfalso. apply Hc. apply Hnames in Ha as (p' & e'' & _ & Hc').
        rewrite (child_name_join _ _ _ Hc'). by exists a.
    + destruct (Hfiles p) as [->|(_ & e' & He' & Hrec' & _)]; [done|]. congruence.
  - destruct (Hfiles p) as [->|(_ & e' & He' & _)]; [done|]. congruence.
Qed.

Lemma cleanup_entry_keep t a w :
  (forall e, files w !! os.path_join TEMP_DIR a = Some e -> reclaimable t e = false) ->
  cleanup_entry TEMP_DIR t a w = (Ok tt, w).
Proof.
  intros Hk. rewrite cleanup_entry_unfold. cbv zeta.
  destruct (os.path_isfile _ w) eqn:Hi; [|done].
  apply isfile_true in Hi as (Hd & e & Hf & Hr).
  rewrite (getctime_present _ _ _ Hd Hf).
  specialize (Hk e Hf). unfold reclaimable in Hk. rewrite Hr in Hk. simpl in Hk.
  by rewrite Hk.
Qed.

Lemma sweep_keep t names w :
  (forall a e, a ∈ names -> files w !! os.path_join TEMP_DIR a = Some e ->
               reclaimable t e = false) ->
  for_each names (cleanup_entry TEMP_DIR t) w = (Ok tt, w).
Proof.
  induction names as [|a names IH]; intros Hk; [done|].
  simpl. unfold bind. rewrite cleanup_entry_keep.
  - apply IH. intros a' e Ha. apply Hk. by apply list_elem_of_further.
  - intros e. apply Hk. apply list_elem_of_here.
Qed.

(** X9.  A pass that ends without an error leaves nothing to do: a second
    pass run at once on the state it left ends without an error and
    changes nothing, neither the directory nor the log. *)
Theorem cleanup_pass_idempotent (w w' : World) :
  cleanup_pass TEMP_DIR w = (Ok tt, w') ->
  cleanup_pass TEMP_DIR w' = (Ok tt, w').
Proof.
  intros Hrun. destruct (cleanup_pass_exact w w' Hrun) as (Hd & Hnow & Hm & Hfiles).
  rewrite cleanup_pass_unfold.
  assert (Hd' : scratch_dir w' <> DirMissing) by congruence.
  destruct (listdir_names TEMP_DIR w' Hd') as (names & -> & Hnames).
  apply sweep_keep. intros a e Ha He.
  apply Hnames in Ha as (p & e' & _ & Hc).
  rewrite (child_name_join _ _ _ Hc) in He.
  rewrite Hfiles in He. destruct (files w !! p) as [e0|]; [|done].
  rewrite Hnow. destruct (reclaimable (now w) e0) eqn:Hrec; simpl in He.
  - rewrite bool_decide_eq_true_2 in He by eauto. done.
  - by injection He as <-.
Qed.

Lemma cleanup_entry_deletable t a w :
  deletable w ->
  exists w', cleanup_entry TEMP_DIR t a w = (Ok tt, w') /\ deletable w'.
Proof.
  intros [Hd Hl].
  destruct (cleanup_entry_cases TEMP_DIR t a w)
    as [[He _]|[[err He]|(e & Hf & Hrec & _ & He)]].
  - exists w. by rewrite He.
  - exfalso. rewrite cleanup_entry_unfold in He. cbv zeta in He.
    destruct (os.path_isfile _ w) eqn:Hi; [|done].
    apply isfile_true in Hi as (Hd' & e & Hf & Hr).
    rewrite (getctime_present _ _ _ Hd' Hf) in He.
    destruct (_ >? _); [|done].
    assert (Hrm : os.remove (os.path_join TEMP_DIR a) w
                  = (Ok tt, set_files (delete (os.path_join TEMP_DIR a)) w)).
    { unfold os.remove. by rewrite Hd, Hf, Hr, (Hl _ _ Hf). }
    by rewrite Hrm in He.
  - eexists. split; [exact He|]. split; [done|]. simpl.
    intros p e' He'. apply lookup_delete_Some in He' as [_ He']. eauto.
Qed.

Lemma sweep_deletable t names w :
  deletable w ->
  exists w', for_each names (cleanup_entry TEMP_DIR t) w = (Ok tt, w') /\ deletable w'.
Proof.
  revert w. induction names as [|a names IH]; intros w Hw; [by exists w|].
  destruct (cleanup_entry_deletable t a w Hw) as (w1 & H1 & Hw1).
  destruct (IH w1 Hw1) as (w' & H' & Hw').
  exists w'. split; [|done]. simpl. unfold bind. by rewrite H1.
Qed.

Lemma cleanup_turn_deletable step w :
  deletable w ->
  exists w1,
    cleanup_pass TEMP_DIR w = (Ok tt, w1)
    /\ cleanup_turn TEMP_DIR step w = (Ok tt, slept step w1)
    /\ now w1 = now w
    /\ deletable w1.
Proof.
  intros Hw. assert (Hd : scratch_dir w <> DirMissing) by (destruct Hw as [-> _]; done).
  destruct (listdir_names TEMP_DIR w Hd) as (names & Hl & _).
  destruct (sweep_deletable (now w) names w Hw) as (w1 & H1 & Hw1).
  assert (Hp : cleanup_pass TEMP_DIR w = (Ok tt, w1)).
  { rewrite cleanup_pass_unfold, Hl. exact H1. }
  exists w1. split; [done|]. split; [by rewrite cleanup_turn_unfold, Hp|].
  split; [|done]. by destruct (cleanup_pass_exact w w1 Hp) as (_ & -> & _).
Qed.

Lemma clock_after_cons step steps t :
  clock_after (step :: steps) t
  = clock_after steps (t + seconds CLEANUP_INTERVAL + step).
Proof. reflexivity. Qed.

(** In a directory where nothing is protected the loop deletes every
    regular file that one of its passes finds older than ten minutes, and
    creates none. *)
Lemma loop_deletable steps w :
  deletable w ->
  exists w',
    cleanup_temp_files TEMP_DIR steps w = Running w'
    /\ (forall p, files w !! p = None -> files w' !! p = None)
    /\ forall p e k,
         (k < length steps)%nat ->
         files w !! p = Some e ->
         is_Some (os.child_name TEMP_DIR p) ->
         is_regular e = true ->
         clock_after (take k steps) (now w) - ctime e > timedelta_minutes 10 ->
         files w' !! p = None.
Proof.
  revert w. induction steps as [|step steps IH]; intros w Hw.
  - exists w. split; [done|]. split; [done|]. simpl. intros; lia.
  - destruct (cleanup_turn_deletable step w Hw) as (w1 & Hp & Ht & Hnow & Hw1).
    destruct (cleanup_pass_exact w w1 Hp) as (_ & _ & _ & Hfiles).
    assert (Hw1' : deletable (slept step w1)) by done.
    destruct (IH _ Hw1') as (w' & Hl & Hnone & Hdel).
    exists w'. split; [simpl; by rewrite Ht|]. split.
    + intros p Hp0. apply Hnone. simpl. by rewrite Hfiles, Hp0.
    + intros p e k Hk He Hc Hr Hage.
      destruct (files w1 !! p) as [e1|] eqn:He1; [|by apply Hnone].
      rewrite Hfiles, He in He1.
      destruct (reclaimable (now w) e && _) eqn:Hrec; [done|]. injection He1 as <-.
      destruct k as [|k].
      * exfalso. unfold reclaimable in Hrec. rewrite Hr in Hrec.
        rewrite bool_decide_eq_true_2 in Hrec by done. simpl in Hrec, Hage.
        rewrite andb_true_r, Z.gtb_ltb in Hrec. apply Z.ltb_ge in Hrec.
        unfold clock_after in Hage. simpl in Hage. lia.
      * apply (Hdel p e k); [simpl in Hk; lia| |done..|].
        -- simpl. by rewrite Hfiles, He, Hrec.
        -- simpl take in Hage. rewrite clock_after_cons in Hage.
           simpl. by rewrite Hnow.
Qed.

(** X10.  When the scratch directory is available and none of its entries
    is protected, the background task deletes every regular file of the
    directory that one of its passes finds older than ten minutes: when
    the wall clock read by pass [k] exceeds the creation time of the file
    by more than ten minutes, the file is gone once the loop has made more
    than [k] turns, however the clock was set during the sleeps. *)
Theorem loop_reclaims_orphans (steps : list Z) (k : nat) (w : World)
    (p : string) (e : Entry) :
  deletable w ->
  files w !! p = Some e ->
  is_Some (os.child_name TEMP_DIR p) ->
  is_regular e = true ->
  (k < length steps)%nat ->
  clock_after (take k steps) (now w) - ctime e > timedelta_minutes 10 ->
  exists w',
    cleanup_temp_files TEMP_DIR steps w = Running w' /\ files w' !! p = None.
Proof.
  intros Hw He Hc Hr Hk Hage.
  destruct (loop_deletable steps w Hw) as (w' & Hrun & _ & Hdel).
  exists w'. split; [done|]. by apply (Hdel p e k).
Qed.

End Passes.

Lemma cleanup_pass_idempotent_witness :
  cleanup_pass Scenario.tmp (snd (cleanup_pass Scenario.tmp Scenario.old_and_new))
  = (Ok tt, snd (cleanup_pass Scenario.tmp Scenario.old_and_new)).
Proof.
  apply (cleanup_pass_idempotent Scenario.tmp Scenario.old_and_new).
  vm_compute. reflexivity.
Defined.

Lemma old_and_new_deletable : deletable Scenario.old_and_new.
Proof.
  split; [reflexivity|]. intros p e H.
  unfold Scenario.old_and_new in H. cbn [files] in H.
  apply lookup_insert_Some in H as [[_ <-]|[_ H]]; [reflexivity|].
  apply lookup_insert_Some in H as [[_ <-]|[_ H]]; [reflexivity|].
  by rewrite lookup_empty in H.
Defined.

(** The clock is set back by one hour during the first sleep; the file
    created at minute 10 is found old enough by the eighth pass. *)
Lemma loop_reclaims_orphans_witness :
  exists w',
    cleanup_temp_files Scenario.tmp
      [- timedelta_minutes 60; 0; 0; 0; 0; 0; 0; 0] Scenario.old_and_new
    = Running w'
    /\ files w' !! "/tmp/tmpk3x9/b.pdf" = None.
Proof.
  apply (loop_reclaims_orphans Scenario.tmp
           [- timedelta_minutes 60; 0; 0; 0; 0; 0; 0; 0] 7 Scenario.old_and_new
           "/tmp/tmpk3x9/b.pdf" (mkEntry true (timedelta_minutes 10) "new" false)).
  - exact old_and_new_deletable.
  - reflexivity.
  - by exists "b.pdf".
  - reflexivity.
  - simpl. lia.
  - vm_compute. reflexivity.
Defined.

(** Seven passes are not enough there. *)
Example clock_set_back_delays_reclaim :
  exists w',
    cleanup_temp_files Scenario.tmp
      [- timedelta_minutes 60; 0; 0; 0; 0; 0; 0] Scenario.old_and_new
    = Running w'
    /\ is_Some (files w' !! "/tmp/tmpk3x9/b.pdf").
Proof. eexists. split; [vm_compute; reflexivity|]. vm_compute. eauto. Qed.

(** ** Handlers that assign both paths before anything can fail *)

(** *** What each step preserves *)

Section Preserves.

Context {S : Type} (P : S -> Prop).

Lemma preserves_ret {A} (a : A) : preserves P (ret a).
Proof. by intros s. Qed.

Lemma preserves_raise {A} e : preserves P (@raise S A e).
Proof. by intros s. Qed.

Lemma preserves_lift_outcome {A} (r : Outcome A) : preserves P (lift_outcome r).
Proof. by intros s. Qed.

Lemma preserves_bind {A B} (m : M S A) (k : A -> M S B) :
  preserves P m -> (forall a, preserves P (k a)) -> preserves P (bind m k).
Proof.
  intros Hm Hk s Hs. unfold bind. specialize (Hm s Hs).
  destruct (m s) as [[a|e] s1]; simpl in *; [|done].
  by apply Hk.
Qed.

Lemma preserves_try_except {A} (m : M S A) (h : exn -> M S A) :
  preserves P m -> (forall e, preserves P (h e)) -> preserves P (try_except m h).
Proof.
  intros Hm Hh s Hs. unfold try_except. specialize (Hm s Hs).
  destruct (m s) as [[a|e] s1]; simpl in *; [done|].
  by apply Hh.
Qed.

End Preserves.

Lemma preserves_bound_lift {A} p q (m : M World A) : preserves (bound p q) (lift m).
Proof.
  intros f Hf. unfold lift. by destruct (m (world f)) as [r w'].
Qed.

Lemma preserves_settled_lift {A} p q w0 (m : M World A) :
  preserves (tidy p q w0) m -> preserves (settled p q w0) (lift m).
Proof.
  intros Hm f [Hb Ht]. unfold lift. specialize (Hm (world f) Ht).
  by destruct (m (world f)) as [r w'].
Qed.

Section Tidy.

Variables (p q : string) (w0 : World).

Lemma tidy_written k d w :
  k = p \/ k = q -> tidy p q w0 w ->
  write_file k d w = (Ok tt, set_files (insert k (mkEntry true (now w) d false)) w)
  /\ tidy p q w0 (set_files (insert k (mkEntry true (now w) d false)) w).
Proof.
  intros Hk (Hd & Hout & Hin). split.
  - unfold write_file. rewrite Hd.
    destruct (files w !! k) as [e|] eqn:He; [|done].
    by destruct (Hin k e Hk He) as [-> ->].
  - split; [done|]. split; simpl.
    + intros k' Hp Hq. rewrite lookup_insert_ne; [by apply Hout|].
      by destruct Hk as [->| ->].
    + intros k' e Hk' He. destruct (decide (k = k')) as [->|Hne].
      * rewrite lookup_insert_eq in He. by injection He as <-.
      * rewrite lookup_insert_ne in He by done. by apply (Hin k').
Qed.

Lemma preserves_tidy_write_input d : preserves (tidy p q w0) (write_file p d).
Proof.
  intros w Hw. destruct (tidy_written p d w (or_introl eq_refl) Hw) as [-> H]. done.
Qed.

Lemma preserves_tidy_write_output d : preserves (tidy p q w0) (write_file q d).
Proof.
  intros w Hw. destruct (tidy_written q d w (or_intror eq_refl) Hw) as [-> H]. done.
Qed.

Lemma preserves_tidy_read k : preserves (tidy p q w0) (read_file k).
Proof.
  intros w Hw. unfold read_file.
  destruct (scratch_dir w); [|done|];
    (destruct (files w !! k) as [e|]; [|done]); by destruct (is_regular e).
Qed.

Lemma preserves_tidy_peek k : preserves (tidy p q w0) (peek k).
Proof. intros w Hw. unfold peek. by destruct (read_file k w) as [[d|e] w']. Qed.

Lemma preserves_tidy_logger_info msg : preserves (tidy p q w0) (logger_info msg).
Proof. by intros w Hw. Qed.

Lemma preserves_tidy_logger_error msg : preserves (tidy p q w0) (logger_error msg).
Proof. by intros w Hw. Qed.

(** Releasing one of the two paths of a tidy directory empties it. *)
Lemma tidy_release k w :
  k = p \/ k = q -> tidy p q w0 w ->
  exists w', release k w = (Ok tt, w') /\ tidy p q w0 w'
             /\ files w' !! k = None
             /\ forall k', files w !! k' = None -> files w' !! k' = None.
Proof.
  intros Hk (Hd & Hout & Hin).
  destruct (files w !! k) as [e|] eqn:He.
  - destruct (Hin k e Hk He) as [Hr Hl].
    assert (Hrm : os.remove k w = (Ok tt, set_files (delete k) w)).
    { unfold os.remove. by rewrite Hd, He, Hr, Hl. }
    assert (Hex : os.path_exists k w = true).
    { unfold os.path_exists. rewrite Hd, He. apply bool_decide_eq_true_2. eauto. }
    exists (set_files (delete k) w). split.
    { unfold release, bind, path_exists, try_except. by rewrite Hex, Hrm. }
    split; [|split].
    + split; [done|]. split; simpl.
      * intros k' Hp Hq. rewrite lookup_delete_ne; [by apply Hout|].
        by destruct Hk as [->| ->].
      * intros k' e' Hk' He'. destruct (decide (k = k')) as [->|Hne].
        -- by rewrite lookup_delete_eq in He'.
        -- rewrite lookup_delete_ne in He' by done. by apply (Hin k').
    + simpl. apply lookup_delete_eq.
    + simpl. intros k' Hn. destruct (decide (k = k')) as [->|Hne].
      * apply lookup_delete_eq.
      * by rewrite lookup_delete_ne.
  - exists w. split; [|done].
    unfold release, bind, path_exists, os.path_exists. rewrite Hd, He.
    rewrite bool_decide_eq_false_2; [done|]. by intros [? ?].
Qed.

End Tidy.

Create HintDb keep discriminated.
#[export] Hint Resolve preserves_ret preserves_raise preserves_lift_outcome
  preserves_tidy_write_input preserves_tidy_write_output preserves_tidy_read
  preserves_tidy_peek preserves_tidy_logger_info preserves_tidy_logger_error
  : keep.

(** Decomposes a goal [preserves P m] along the structure of [m]. *)
Ltac keep_step :=
  cbv zeta;
  first
    [ solve [auto with keep]
    | apply preserves_bound_lift
    | apply preserves_settled_lift
    | apply preserves_bind; [|intros ?]
    | apply preserves_try_except; [|intros ?]
    | match goal with
      | |- preserves _ (if ?c then _ else _) => destruct c
      | |- preserves _ (match ?x with _ => _ end) => destruct x
      end ].
Ltac keep_tac := unfold save_upload, adobe_call, reraise_or_500; repeat keep_step.

Lemma cleanup_block_bound p q f :
  bound p q f ->
  exists w1 w2,
    release p (world f) = (Ok tt, w1) /\ release q w1 = (Ok tt, w2)
    /\ cleanup_block f = (Ok tt, mkFrame w2 (Some p) (Some q)).
Proof.
  intros [Hp Hq].
  assert (Hrel : forall k w, exists w', release k w = (Ok tt, w')).
  { intros k w. destruct (release_outcome k w) as [->|[-> _]]; eauto. }
  destruct (Hrel p (world f)) as [w1 H1]. destruct (Hrel q w1) as [w2 H2].
  exists w1, w2. split; [done|]. split; [done|].
  cbv beta iota zeta delta
    [cleanup_block bind local_input_path local_output_path ret for_each lift
     world input_path output_path].
  destruct f as [w ip op]. simpl in *. subst ip op. cbv beta iota.
  rewrite H1. cbv beta iota. by rewrite H2.
Qed.

Section TwoPaths.

Variable TEMP_DIR : string.
Variable ext : Externals.

Context {A : Type} (e1 e2 : string) (REST : string -> string -> M Frame A)
        (H : exn -> M Frame A).

(** The shape that seven of the eight handlers share, once the upload is
    accepted. *)
Local Abbreviation handler :=
  (in_frame
     (try_finally
        (try_except
           (bind (assign_input_path (create_temp_file TEMP_DIR ext e1))
              (fun input_path =>
                 bind (assign_output_path (create_temp_file TEMP_DIR ext e2))
                   (fun output_path => REST input_path output_path)))
           H)
        cleanup_block)).

Lemma two_paths_run w :
  let p := scratch_path TEMP_DIR ext (draws w) e1 in
  let q := scratch_path TEMP_DIR ext (S (draws w)) e2 in
  let w2 := add_issued q (set_draws (S (S (draws w)))
                            (add_issued p (set_draws (S (draws w)) w))) in
  handler w
  = match REST p q (mkFrame w2 (Some p) (Some q)) with
    | (Ok a, f3) => finish (Ok a) f3
    | (Raise x, f3) => match H x f3 with (r, f4) => finish r f4 end
    end.
Proof.
  intros p q w2. unfold in_frame, try_finally, try_except, finish.
  change (bind (assign_input_path _) _ (mkFrame w None None))
    with (REST p q (mkFrame w2 (Some p) (Some q))).
  destruct (REST p q _) as [[a|x] f3].
  - by destruct (cleanup_block f3) as [[[]|e] f'].
  - destruct (H x f3) as [r f4]. by destruct (cleanup_block f4) as [[[]|e] f'].
Qed.

Lemma finish_bound {B} p q (r : Outcome B) f :
  bound p q f ->
  exists w1 w2,
    release p (world f) = (Ok tt, w1) /\ release q w1 = (Ok tt, w2)
    /\ finish r f = (r, w2).
Proof.
  intros Hb. destruct (cleanup_block_bound p q f Hb) as (w1 & w2 & H1 & H2 & H3).
  exists w1, w2. unfold finish. by rewrite H3.
Qed.

(** The handler raises nothing but what its [except] clauses raise. *)
Lemma two_paths_outcome (P : exn -> Prop) w :
  (forall p q, preserves (bound p q) (REST p q)) ->
  (forall x p q, preserves (bound p q) (H x)) ->
  (forall x, always_raises P (H x)) ->
  match fst (handler w) with
  | Ok _ => True
  | Raise e => P e
  end.
Proof.
  intros HR HH HP. rewrite two_paths_run. cbv zeta.
  set (p := scratch_path TEMP_DIR ext (draws w) e1).
  set (q := scratch_path TEMP_DIR ext (S (draws w)) e2).
  match goal with |- context [REST p q ?f] => set (f2 := f) end.
  assert (Hb : bound p q f2) by done.
  pose proof (HR p q f2 Hb) as Hb3.
  destruct (REST p q f2) as [[a|x] f3]; simpl in Hb3.
  - destruct (finish_bound p q (Ok a) f3 Hb3) as (w1 & w3 & _ & _ & ->). done.
  - pose proof (HH x p q f3 Hb3) as Hb4.
    destruct (HP x f3) as (e & He & HPe).
    destruct (H x f3) as [r f4]; simpl in *. subst r.
    destruct (finish_bound p q (@Raise A e) f4 Hb4) as (w1 & w3 & _ & _ & ->). done.
Qed.

(** The [finally] block does not change the result of the handler. *)
Lemma two_paths_fst w :
  (forall p q, preserves (bound p q) (REST p q)) ->
  (forall x p q, preserves (bound p q) (H x)) ->
  let p := scratch_path TEMP_DIR ext (draws w) e1 in
  let q := scratch_path TEMP_DIR ext (S (draws w)) e2 in
  let w2 := add_issued q (set_draws (S (S (draws w)))
                            (add_issued p (set_draws (S (draws w)) w))) in
  fst (handler w)
  = match REST p q (mkFrame w2 (Some p) (Some q)) with
    | (Ok a, _) => Ok a
    | (Raise x, f3) => fst (H x f3)
    end.
Proof.
  intros HR HH p q w2. rewrite two_paths_run. cbv zeta. fold p q w2.
  assert (Hb : bound p q (mkFrame w2 (Some p) (Some q))) by done.
  pose proof (HR p q _ Hb) as Hb3.
  destruct (REST p q _) as [[a|x] f3]; simpl in Hb3.
  - destruct (finish_bound p q (Ok a) f3 Hb3) as (w1 & w3 & _ & _ & ->). done.
  - pose proof (HH x p q f3 Hb3) as Hb4.
    destruct (H x f3) as [r f4]; simpl in *.
    destruct (finish_bound p q r f4 Hb4) as (w1 & w3 & _ & _ & ->). done.
Qed.

(** The handler leaves the scratch directory as it found it. *)
Lemma two_paths_restore w :
  let p := scratch_path TEMP_DIR ext (draws w) e1 in
  let q := scratch_path TEMP_DIR ext (S (draws w)) e2 in
  (forall w0, preserves (settled p q w0) (REST p q)) ->
  (forall x w0, preserves (settled p q w0) (H x)) ->
  scratch_dir w = DirAvailable ->
  files w !! p = None -> files w !! q = None ->
  files (snd (handler w)) = files w.
Proof.
  intros p q HR HH Hd Hp Hq. rewrite two_paths_run. cbv zeta. fold p q.
  match goal with |- context [REST p q ?f] => set (f2 := f) end.
  assert (Hs : settled p q w f2).
  { split; [done|]. split; [done|]. split; [done|].
    intros k e [->| ->]; simpl; congruence. }
  assert (Hend : forall B (r : Outcome B) f, settled p q w f ->
                   files (snd (finish r f)) = files w).
  { intros B r f [Hb Ht].
    destruct (finish_bound p q r f Hb) as (w1 & w3 & H1 & H2 & ->). simpl.
    destruct (tidy_release p q w p (world f) (or_introl eq_refl) Ht)
      as (w1' & H1' & Ht1 & Hp1 & _).
    rewrite H1 in H1'. injection H1' as <-.
    destruct (tidy_release p q w q w1 (or_intror eq_refl) Ht1)
      as (w3' & H2' & (_ & Hout & _) & Hq3 & Hkeep).
    rewrite H2 in H2'. injection H2' as <-.
    apply map_eq. intros k.
    destruct (decide (k = q)) as [->|Hkq]; [congruence|].
    destruct (decide (k = p)) as [->|Hkp]; [by rewrite (Hkeep p Hp1)|].
    by apply Hout. }
  pose proof (HR w f2 Hs) as Hs3.
  destruct (REST p q f2) as [[a|x] f3]; simpl in Hs3.
  - by apply Hend.
  - pose proof (HH x w f3 Hs3) as Hs4.
    destruct (H x f3) as [r f4]. by apply Hend.
Qed.

(** The handler issues its two paths and no other. *)
Lemma two_paths_ledger w :
  (forall p q, quiet frame_ledger (REST p q)) ->
  (forall x, quiet frame_ledger (H x)) ->
  ledger (snd (handler w))
  = (S (S (draws w)),
     issued w ++ [scratch_path TEMP_DIR ext (draws w) e1;
                  scratch_path TEMP_DIR ext (S (draws w)) e2]).
Proof.
  intros HR HH. rewrite two_paths_run. cbv zeta.
  assert (Hend : forall B (r : Outcome B) f,
            ledger (snd (finish r f)) = frame_ledger f).
  { intros B r f. unfold finish. pose proof (quiet_cleanup_block f) as Hq.
    by destruct (cleanup_block f) as [[[]|e] f']. }
  match goal with |- context [REST ?p ?q ?f] => pose proof (HR p q f) as H3;
    destruct (REST p q f) as [[a|x] f3] end; simpl in H3.
  - rewrite Hend, H3. unfold frame_ledger, ledger. simpl. by rewrite <- app_assoc.
  - pose proof (HH x f3) as H4. destruct (H x f3) as [r f4]. simpl in H4.
    rewrite Hend, H4, H3. unfold frame_ledger, ledger. simpl. by rewrite <- app_assoc.
Qed.

End TwoPaths.

(** *** Outcomes of the handlers *)

Ltac unfold_handlers :=
  unfold handle, unlock_pdf_legacy, lock_pdf_legacy, remove_pdf_links_legacy,
    adobe_convert_pdf_to_word, adobe_convert_pdf_to_excel, adobe_compress_pdf,
    adobe_optimize_pdf.

Lemma always_raises_reraise_or_500 {A} l d e :
  always_raises is_http (@reraise_or_500 A l d e).
Proof.
  intros f. destruct e; eexists; (split; [reflexivity|]); by eexists _, _.
Qed.

Section HandlerOutcomes.

Variable TEMP_DIR : string.
Variable ext : Externals.

Lemma accepted_guards ep r :
  accepted ep r = true ->
  validate_pdf_file (upload r) = true
  /\ validate_file_size (size (upload r)) = true
  /\ (ep = AdobeCompressPdf ->
      bool_decide (compression_level r ∈ compression_levels) = true).
Proof.
  unfold accepted. intros H.
  apply andb_true_iff in H as [H H3]. apply andb_true_iff in H as [H1 H2].
  split; [done|]. split; [done|]. by intros ->.
Qed.

(** X2.  Whatever the upload, the collaborators and the state of the
    scratch directory, each of the three handlers that call synchronous
    libraries only (unlock, lock, remove links: no [await] in their [try]
    block) either returns a response or raises an [HTTPException]: no
    other exception leaves the handler, not even from the [finally]
    block. *)
Theorem handlers_raise_only_http (ep : Endpoint) (r : Request) (w : World) :
  ep = UnlockPdf \/ ep = LockPdf \/ ep = RemovePdfLinks ->
  match fst (handle TEMP_DIR ext ep r w) with
  | Ok _ => True
  | Raise e => is_http e
  end.
Proof.
  intros Hep. destruct (accepted ep r) eqn:Ha.
  - apply accepted_guards in Ha as (H1 & H2 & _).
    destruct Hep as [-> | [-> | ->]]; unfold_handlers; rewrite H1, H2; simpl;
      apply two_paths_outcome;
      try (intros; solve [keep_tac]);
      try (intros; apply always_raises_reraise_or_500).
    + intros x f. destruct x; simpl;
        try (destruct (Py.contains _ _));
        eexists; (split; [reflexivity|]); by eexists _, _.
    + intros x f. eexists; (split; [reflexivity|]); by eexists _, _.
  - destruct (handle_rejected TEMP_DIR ext ep r w Ha) as [detail ->].
    by eexists _, _.
Qed.

(** X1.  When the scratch directory is available and the two paths to be
    issued are free, each of the seven handlers that assign both paths
    first leaves the directory exactly as it found it, on every exit
    route: whatever the collaborators return, raise or write, nothing
    stays behind and no other file is touched. *)
Theorem handlers_restore_scratch_directory (ep : Endpoint) (r : Request) (w : World) :
  ep <> AdobeExtractText ->
  scratch_dir w = DirAvailable ->
  (forall p, p ∈ plan TEMP_DIR ext (draws w) (extensions ep) -> files w !! p = None) ->
  files (snd (handle TEMP_DIR ext ep r w)) = files w.
Proof.
  intros Hep Hd Hfresh. destruct (accepted ep r) eqn:Ha.
  - apply accepted_guards in Ha as (H1 & H2 & H3).
    destruct ep; try done; unfold_handlers; rewrite H1, H2; simpl;
      try rewrite (H3 eq_refl); simpl;
      (apply two_paths_restore;
       [ intros; solve [keep_tac]
       | intros; solve [keep_tac]
       | done
       | apply Hfresh; simpl; apply list_elem_of_here
       | apply Hfresh; simpl; apply list_elem_of_further, list_elem_of_here ]).
  - by destruct (handle_rejected TEMP_DIR ext ep r w Ha) as [detail ->].
Qed.

End HandlerOutcomes.

Lemma idle_plan_free ext ep p :
  p ∈ plan Scenario.tmp ext (draws Scenario.idle) (extensions ep) ->
  files Scenario.idle !! p = None.
Proof. intros _. apply lookup_empty. Defined.

Lemma handlers_raise_only_http_witness :
  match fst (handle Scenario.tmp Scenario.refusing LockPdf
               (Scenario.request Scenario.report "medium") Scenario.gone) with
  | Ok _ => True
  | Raise e => is_http e
  end.
Proof.
  apply (handlers_raise_only_http Scenario.tmp Scenario.refusing LockPdf
           (Scenario.request Scenario.report "medium") Scenario.gone).
  right. left. reflexivity.
Defined.

Lemma handlers_restore_scratch_directory_witness :
  files (snd (handle Scenario.tmp Scenario.refusing AdobeCompressPdf
                (Scenario.request Scenario.report "medium") Scenario.idle))
  = files Scenario.idle.
Proof.
  apply (handlers_restore_scratch_directory Scenario.tmp Scenario.refusing
           AdobeCompressPdf (Scenario.request Scenario.report "medium") Scenario.idle).
  - discriminate.
  - reflexivity.
  - apply idle_plan_free.
Defined.

(** *** Which paths a request is issued *)

Section IssuedPaths.

Variable TEMP_DIR : string.
Variable ext : Externals.

(** An accepted request to a handler that assigns both paths first is
    issued the two planned paths on every route. *)
Lemma accepted_issues_plan ep r w :
  ep <> AdobeExtractText ->
  accepted ep r = true ->
  issued_by TEMP_DIR ext ep r w = plan TEMP_DIR ext (draws w) (extensions ep).
Proof.
  intros Hep Ha. apply accepted_guards in Ha as (H1 & H2 & H3).
  assert (Hl : ledger (snd (handle TEMP_DIR ext ep r w))
               = (S (S (draws w)),
                  issued w ++ plan TEMP_DIR ext (draws w) (extensions ep))).
  { destruct ep; try done; unfold_handlers; rewrite H1, H2; simpl;
      try rewrite (H3 eq_refl); simpl;
      (apply two_paths_ledger; intros; solve [quiet_tac]). }
  unfold issued_by. injection Hl as _ Hi. by rewrite Hi, drop_app_length.
Qed.

(** C9 (amended).  An issued path is never derived from the request: the
    paths issued while a request is handled are the first ones of a list
    that the endpoint, the scratch directory and the random identifiers
    determine, so that two requests to the same endpoint, however their
    filename, content, password and form fields differ, are given the same
    path at every issuance that both reach.  The request decides how many
    paths are issued: none when it is rejected, both when it is accepted,
    and for text extraction one or both. *)
Theorem issued_path_independent_of_request (ep : Endpoint) (w : World) :
  (forall r1 r2 k p1 p2,
      issued_by TEMP_DIR ext ep r1 w !! k = Some p1 ->
      issued_by TEMP_DIR ext ep r2 w !! k = Some p2 ->
      p1 = p2)
  /\ (forall r k p,
        issued_by TEMP_DIR ext ep r w !! k = Some p ->
        plan TEMP_DIR ext (draws w) (extensions ep) !! k = Some p)
  /\ (forall r, accepted ep r = false -> issued_by TEMP_DIR ext ep r w = [])
  /\ (forall r,
        accepted ep r = true -> ep <> AdobeExtractText ->
        issued_by TEMP_DIR ext ep r w = plan TEMP_DIR ext (draws w) (extensions ep))
  /\ (forall r,
        accepted ep r = true ->
        (1 <= length (issued_by TEMP_DIR ext ep r w) <= 2)%nat).
Proof.
  assert (Hplan : forall r k p,
            issued_by TEMP_DIR ext ep r w !! k = Some p ->
            plan TEMP_DIR ext (draws w) (extensions ep) !! k = Some p).
  { intros r k p. destruct (issued_by_plan TEMP_DIR ext ep r w) as [n ->].
    by intros [H _]%lookup_take_Some. }
  split; [|split; [|split; [|split]]].
  - intros r1 r2 k p1 p2 H1 H2.
    apply Hplan in H1. apply Hplan in H2. congruence.
  - exact Hplan.
  - intros r Ha. unfold issued_by.
    destruct (handle_rejected TEMP_DIR ext ep r w Ha) as [detail ->].
    simpl. by rewrite drop_all.
  - intros r Ha Hep. by apply accepted_issues_plan.
  - intros r Ha. unfold issued_by.
    pose proof (handle_accepted TEMP_DIR ext ep r w Ha) as H.
    destruct (handle TEMP_DIR ext ep r w) as [res w'].
    destruct H as (n & Hn & _ & Hi). simpl. rewrite Hi, drop_app_length.
    rewrite length_take. destruct ep; simpl; lia.
Qed.

End IssuedPaths.

Lemma issued_path_independent_of_request_witness :
  issued_by Scenario.tmp (Scenario.libs (Ok "")) LockPdf
    (mkRequest (mkUploadFile "a.pdf" 10 "%PDF-1.4") "one" "low") Scenario.idle
  = issued_by Scenario.tmp (Scenario.libs (Ok "")) LockPdf
      (mkRequest (mkUploadFile "../b.PDF" 99 "%PDF-1.7 other") "two" "high")
      Scenario.idle.
Proof.
  destruct (issued_path_independent_of_request Scenario.tmp (Scenario.libs (Ok ""))
              LockPdf Scenario.idle) as (_ & _ & _ & H & _).
  rewrite H; [|reflexivity|discriminate].
  rewrite H; [|reflexivity|discriminate].
  reflexivity.
Defined.

(** The issued paths are not the same for any two requests: a request
    that is rejected for its filename is issued none, where the same
    request with a filename in ".pdf" is issued two. *)
Lemma issued_path_independent_of_request_counterexample :
  ~ (forall r1 r2 : Request,
       issued_by Scenario.tmp (Scenario.libs (Ok "")) UnlockPdf r1 Scenario.idle
       = issued_by Scenario.tmp (Scenario.libs (Ok "")) UnlockPdf r2 Scenario.idle).
Proof.
  intros H.
  specialize (H (Scenario.request Scenario.report "medium")
                (Scenario.request (mkUploadFile "report.txt" 1024 "%PDF-1.7") "medium")).
  vm_compute in H. discriminate.
Qed.

(** For text extraction, what the OCR step finds in the upload decides
    whether the second path is issued. *)
Example extract_text_issues_one_or_two :
  length (issued_by Scenario.tmp (Scenario.libs (Ok "text")) AdobeExtractText
            (Scenario.request Scenario.report "medium") Scenario.idle) = 2%nat
  /\ length (issued_by Scenario.tmp (Scenario.libs (Ok "")) AdobeExtractText
               (Scenario.request Scenario.report "medium") Scenario.idle) = 1%nat.
Proof. split; reflexivity. Qed.

Section HandlerErrors.

Variable TEMP_DIR : string.
Variable ext : Externals.

(** X3.  The unlock and the link-removal handlers answer a failure with
    status 400 or 500 only. *)
Theorem unlock_and_links_answer_400_or_500 (ep : Endpoint) (r : Request) (w : World) :
  ep = UnlockPdf \/ ep = RemovePdfLinks ->
  match fst (handle TEMP_DIR ext ep r w) with
  | Ok _ => True
  | Raise e => is_http_400_500 e
  end.
Proof.
  intros Hep. destruct (accepted ep r) eqn:Ha.
  - apply accepted_guards in Ha as (H1 & H2 & _).
    destruct Hep as [-> | ->]; unfold_handlers; rewrite H1, H2; simpl;
      apply two_paths_outcome; try (intros; solve [keep_tac]).
    + intros x f. destruct x; simpl;
        try (destruct (Py.contains _ _));
        eexists; (split; [reflexivity|]); eexists _, _; eauto.
    + intros x f. eexists; (split; [reflexivity|]); eexists _, _; eauto.
  - destruct (handle_rejected TEMP_DIR ext ep r w Ha) as [detail ->].
    eexists _, _; eauto.
Qed.

(** X4.  How the unlock handler answers when pikepdf refuses to open the
    upload: a wrong password gives 400 "Incorrect password for this PDF.",
    a [PdfError] whose message mentions "not encrypted" (in any case) gives
    400 "This PDF is not encrypted.", another [PdfError] gives 400 with the
    message, and anything else 500. *)
Theorem unlock_open_failure (f : UploadFile) (password : string) (w : World) (e : exn) :
  validate_pdf_file f = true ->
  validate_file_size (size f) = true ->
  scratch_dir w = DirAvailable ->
  files w !! scratch_path TEMP_DIR ext (draws w) ".pdf" = None ->
  pikepdf_open ext (file f) password = Raise e ->
  fst (unlock_pdf_legacy TEMP_DIR ext f password w) = Raise (unlock_failure e).
Proof.
  intros Hv1 Hv2 Hd Hp Hopen.
  unfold unlock_pdf_legacy. rewrite Hv1, Hv2. simpl negb. cbv iota.
  etransitivity; [apply two_paths_fst; intros; solve [keep_tac]|].
  set (p := scratch_path TEMP_DIR ext (draws w) ".pdf") in *.
  set (q := scratch_path TEMP_DIR ext (S (draws w)) ".pdf").
  set (w1 := add_issued q _).
  set (w2 := set_files (insert p (mkEntry true (now w) (file f) false)) w1).
  assert (H1 : write_file p (file f) w1 = (Ok tt, w2)) by by apply write_file_fresh.
  assert (H2 : read_file p w2 = (Ok (file f), w2)).
  { apply (read_file_present p (mkEntry true (now w) (file f) false)); [done| |done].
    apply lookup_insert_eq. }
  cbv beta iota zeta delta [bind save_upload lift lift_outcome world input_path output_path].
  rewrite H1. cbv beta iota. rewrite H2. cbv beta iota. rewrite Hopen.
  destruct e; try reflexivity.
  simpl. by destruct (Py.contains _ _).
Qed.

(** X5.  A PDF that is already encrypted is refused by the lock handler with
    400 "PDF is already encrypted.", whether pikepdf opens it and reports
    the encryption or refuses to open it without a password; the [except
    HTTPException: raise] clause keeps the 400 from being turned into a
    500. *)
Theorem lock_refuses_encrypted (f : UploadFile) (password : string) (w : World) :
  validate_pdf_file f = true ->
  validate_file_size (size f) = true ->
  scratch_dir w = DirAvailable ->
  files w !! scratch_path TEMP_DIR ext (draws w) ".pdf" = None ->
  match pikepdf_open ext (file f) "" with
  | Ok pdf => is_encrypted ext pdf = true
  | Raise e => exists msg, e = PasswordError msg
  end ->
  fst (lock_pdf_legacy TEMP_DIR ext f password w)
  = Raise (HTTPException 400 "PDF is already encrypted.").
Proof.
  intros Hv1 Hv2 Hd Hp Hopen.
  unfold lock_pdf_legacy. rewrite Hv1, Hv2. simpl negb. cbv iota.
  etransitivity; [apply two_paths_fst; intros; solve [keep_tac]|].
  set (p := scratch_path TEMP_DIR ext (draws w) ".pdf") in *.
  set (q := scratch_path TEMP_DIR ext (S (draws w)) ".pdf").
  set (w1 := add_issued q _).
  set (w2 := set_files (insert p (mkEntry true (now w) (file f) false)) w1).
  assert (H1 : write_file p (file f) w1 = (Ok tt, w2)) by by apply write_file_fresh.
  assert (H2 : read_file p w2 = (Ok (file f), w2)).
  { apply (read_file_present p (mkEntry true (now w) (file f) false)); [done| |done].
    apply lookup_insert_eq. }
  cbv beta iota zeta delta
    [bind save_upload lift lift_outcome try_except raise ret reraise_or_500
     world input_path output_path].
  rewrite H1. cbv beta iota. rewrite H2. cbv beta iota.
  destruct (pikepdf_open ext (file f) "") as [pdf|e].
  - by rewrite Hopen.
  - by destruct Hopen as [msg ->].
Qed.

End HandlerErrors.

Lemma unlock_and_links_answer_400_or_500_witness :
  match fst (handle Scenario.tmp Scenario.refusing UnlockPdf
               (Scenario.request Scenario.report "medium") Scenario.idle) with
  | Ok _ => True
  | Raise e => is_http_400_500 e
  end.
Proof.
  apply (unlock_and_links_answer_400_or_500 Scenario.tmp Scenario.refusing UnlockPdf
           (Scenario.request Scenario.report "medium") Scenario.idle).
  left. reflexivity.
Defined.

Lemma unlock_open_failure_witness :
  fst (unlock_pdf_legacy Scenario.tmp Scenario.refusing Scenario.report "guess"
         Scenario.idle)
  = Raise (HTTPException 400 "Incorrect password for this PDF.").
Proof.
  apply (unlock_open_failure Scenario.tmp Scenario.refusing Scenario.report "guess"
           Scenario.idle (PasswordError "invalid password")); reflexivity.
Defined.

Lemma lock_refuses_encrypted_witness :
  fst (lock_pdf_legacy Scenario.tmp Scenario.refusing Scenario.report "secret"
         Scenario.idle)
  = Raise (HTTPException 400 "PDF is already encrypted.").
Proof.
  apply (lock_refuses_encrypted Scenario.tmp Scenario.refusing Scenario.report "secret"
           Scenario.idle); try reflexivity.
  by exists "invalid password".
Defined.

Section Adobe.

Variable TEMP_DIR : string.
Variable ext : Externals.

(** X18.  When the Adobe service returns [False] for an accepted upload, the
    conversion, compression and optimization handlers answer 500 with
    their own message: the [HTTPException] raised inside the [try] block is
    re-raised as it is by [except HTTPException: raise]. *)
Theorem adobe_refusal_is_500 (ep : Endpoint) (r : Request) (w : World) op res :
  adobe_operation ext ep r = Some op ->
  accepted ep r = true ->
  scratch_dir w = DirAvailable ->
  (forall p, p ∈ plan TEMP_DIR ext (draws w) (extensions ep) -> files w !! p = None) ->
  op (Some (file (upload r))) = Ok res ->
  success res = false ->
  fst (handle TEMP_DIR ext ep r w) = Raise (HTTPException 500 (adobe_refusal ep)).
Proof.
  intros Hop Ha Hd Hfresh Hres Hsucc.
  apply accepted_guards in Ha as (H1 & H2 & H3).
  assert (Hrun : forall e2 p q,
    p = scratch_path TEMP_DIR ext (draws w) ".pdf" ->
    q = scratch_path TEMP_DIR ext (S (draws w)) e2 ->
    files w !! p = None -> files w !! q = None ->
    forall w1, files w1 = files w -> scratch_dir w1 = DirAvailable -> now w1 = now w ->
    exists f2 f3,
      save_upload p (upload r) (mkFrame w1 (Some p) (Some q)) = (Ok tt, f2)
      /\ adobe_call op p q f2 = (Ok false, f3)).
  { intros e2 p q -> -> Hp Hq w1 Hf1 Hd1 Hn1.
    set (p := scratch_path TEMP_DIR ext (draws w) ".pdf") in *.
    set (q := scratch_path TEMP_DIR ext (S (draws w)) e2) in *.
    assert (Ht1 : tidy p q w w1).
    { split; [done|]. rewrite Hf1. split; [done|].
      intros k e [->| ->]; congruence. }
    destruct (tidy_written p q w p (file (upload r)) w1 (or_introl eq_refl) Ht1)
      as [Hw Ht2].
    set (w2 := set_files _ w1) in *.
    assert (Hpk : peek p w2 = (Ok (Some (file (upload r))), w2)).
    { apply (peek_written p (mkEntry true (now w1) (file (upload r)) false));
        [done| |done]. apply lookup_insert_eq. }
    destruct (written res) as [d|] eqn:Hwr;
      (eexists _, _; split;
       [ unfold save_upload, lift; simpl world; rewrite Hw; reflexivity |]);
      cbv beta iota zeta delta [bind adobe_call lift lift_outcome ret
                                world input_path output_path];
      rewrite Hpk; cbv beta iota; rewrite Hres; cbv beta iota; rewrite Hwr.
    - destruct (tidy_written p q w q d w2 (or_intror eq_refl) Ht2) as [-> _].
      rewrite Hsucc. reflexivity.
    - rewrite Hsucc. reflexivity. }
  destruct ep; try discriminate; injection Hop as <-;
    unfold_handlers; rewrite H1, H2; simpl; try rewrite (H3 eq_refl); simpl;
    (etransitivity; [apply two_paths_fst; intros; solve [keep_tac]|]);
    match goal with
    | |- context [scratch_path TEMP_DIR ext (S (draws w)) ?e2] =>
        destruct (Hrun e2 _ _ eq_refl eq_refl
                    (Hfresh _ ltac:(simpl; apply list_elem_of_here))
                    (Hfresh _ ltac:(simpl; apply list_elem_of_further, list_elem_of_here))
                    (add_issued (scratch_path TEMP_DIR ext (S (draws w)) e2)
                       (set_draws (S (S (draws w)))
                          (add_issued (scratch_path TEMP_DIR ext (draws w) ".pdf")
                             (set_draws (S (draws w)) w))))
                    eq_refl Hd eq_refl) as (f2 & f3 & Hf2 & Hf3)
    end;
    unfold bind at 1; rewrite Hf2; cbv beta iota;
    unfold bind at 1; rewrite Hf3; reflexivity.
Qed.

End Adobe.

Lemma adobe_refusal_is_500_witness :
  fst (handle Scenario.tmp Scenario.refusing AdobePdfToWord
         (Scenario.request Scenario.report "medium") Scenario.idle)
  = Raise (HTTPException 500 "Adobe conversion failed. Please try again.").
Proof.
  apply (adobe_refusal_is_500 Scenario.tmp Scenario.refusing AdobePdfToWord
           (Scenario.request Scenario.report "medium") Scenario.idle
           (convert_pdf_to_word Scenario.refusing) (mkAdobeResult None false));
    reflexivity.
Defined.

(** ** Text extraction when the OCR step returns text *)

Section ExtractText.

Variable TEMP_DIR : string.
Variable ext : Externals.

(** X19.  When the OCR step returns a non-empty text, the text-extraction
    handler issues a second path ending in ".txt", answers with a
    [FileResponse] for that path named after the upload with media type
    "text/plain", and its [finally] block leaves the scratch directory as
    it was. *)
Theorem extract_text_success (f : UploadFile) (w : World) (text : string) :
  let p := scratch_path TEMP_DIR ext (draws w) ".pdf" in
  let q := scratch_path TEMP_DIR ext (S (draws w)) ".txt" in
  validate_pdf_file f = true ->
  validate_file_size (size f) = true ->
  scratch_dir w = DirAvailable ->
  files w !! p = None -> files w !! q = None ->
  extract_text_with_ocr ext (Some (file f)) = Ok text ->
  Py.truthy text = true ->
  exists w',
    adobe_extract_text TEMP_DIR ext f w
    = (Ok (mkFileResponse q (converted_filename f ".txt") "text/plain"), w')
    /\ issued w' = issued w ++ [p; q]
    /\ files w' = files w.
Proof.
  intros p q Hv1 Hv2 Hd Hp Hq Hocr Htext.
  set (w1 := add_issued p (set_draws (S (draws w)) w)).
  assert (Ht1 : tidy p q w w1).
  { split; [done|]. split; [done|]. intros k e [->| ->]; simpl; congruence. }
  destruct (tidy_written p q w p (file f) w1 (or_introl eq_refl) Ht1) as [H1 Ht2].
  set (w2 := set_files _ w1) in *.
  assert (Hpk : peek p w2 = (Ok (Some (file f)), w2)).
  { apply (peek_written p (mkEntry true (now w1) (file f) false)); [done| |done].
    apply lookup_insert_eq. }
  set (w3 := add_issued q (set_draws (S (S (draws w))) w2)).
  assert (Ht3 : tidy p q w w3) by done.
  destruct (tidy_written p q w q text w3 (or_intror eq_refl) Ht3) as [H3 Ht4].
  set (w4 := set_files _ w3) in *.
  set (w5 := add_log (INFO ("Successfully extracted text from " +:+ filename f
                            +:+ " using Adobe OCR")) w4).
  assert (Ht5 : tidy p q w w5) by done.
  destruct (tidy_release p q w p w5 (or_introl eq_refl) Ht5)
    as (w6 & H6 & Ht6 & Hp6 & _).
  destruct (tidy_release p q w q w6 (or_intror eq_refl) Ht6)
    as (w7 & H7 & (_ & Hout & _) & Hq7 & Hkeep).
  exists w7. split; [|split].
  - cbv beta iota zeta delta
      [adobe_extract_text in_frame try_finally try_except bind assign_input_path
       assign_output_path lift modify ret raise save_upload lift_outcome
       create_temp_file uuid_uuid4 cleanup_block local_input_path
       local_output_path logger_info for_each world input_path output_path].
    rewrite Hv1, Hv2. cbv beta iota delta [negb].
    change (os.path_join TEMP_DIR
              (uuid.str (uuid.uuid4_int (os_urandom16 ext (draws w))) +:+ ".pdf"))
      with p.
    change (add_issued p _) with w1.
    rewrite H1. cbv beta iota. rewrite Hpk. cbv beta iota. rewrite Hocr, Htext.
    cbv beta iota.
    change (os.path_join TEMP_DIR _) with q.
    change (add_issued q _) with w3.
    rewrite H3. cbv beta iota.
    change (add_log _ w4) with w5. rewrite H6. cbv beta iota. rewrite H7.
    reflexivity.
  - pose proof (quiet_release p w5) as Q6. rewrite H6 in Q6.
    pose proof (quiet_release q w6) as Q7. rewrite H7 in Q7.
    injection Q6 as _ I6. injection Q7 as _ I7. rewrite I7, I6. simpl.
    by rewrite <- app_assoc.
  - apply map_eq. intros k.
    destruct (decide (k = q)) as [->|Hkq]; [congruence|].
    destruct (decide (k = p)) as [->|Hkp]; [by rewrite (Hkeep p Hp6)|].
    by apply Hout.
Qed.

End ExtractText.

Lemma extract_text_success_witness :
  exists w',
    adobe_extract_text Scenario.tmp (Scenario.libs (Ok "Hello")) Scenario.report
      Scenario.idle
    = (Ok (mkFileResponse
             (scratch_path Scenario.tmp (Scenario.libs (Ok "Hello")) 1 ".txt")
             "report.txt" "text/plain"), w')
    /\ issued w'
       = issued Scenario.idle
         ++ [scratch_path Scenario.tmp (Scenario.libs (Ok "Hello")) 0 ".pdf";
             scratch_path Scenario.tmp (Scenario.libs (Ok "Hello")) 1 ".txt"]
    /\ files w' = files Scenario.idle.
Proof.
  apply (extract_text_success Scenario.tmp (Scenario.libs (Ok "Hello")) Scenario.report
           Scenario.idle "Hello"); reflexivity.
Defined.

(** ** Issued paths and the background task *)

Lemma contains_char_app c s t :
  Py.contains (String c "") (s +:+ t)
  = Py.contains (String c "") s || Py.contains (String c "") t.
Proof.
  induction s as [|a s IH].
  - change ("" +:+ t) with t. by destruct t.
  - rewrite str_app_cons. cbn [Py.contains]. rewrite !prefix_char, IH.
    by rewrite orb_assoc.
Qed.

Lemma hex_fixed_no_sep k n : Py.contains "/" (uuid.hex_fixed k n) = false.
Proof.
  induction k as [|k IH]; [done|].
  cbn [uuid.hex_fixed Py.contains]. rewrite prefix_char, IH.
  rewrite bool_decide_eq_false_2; [done|].
  intros E. symmetry in E. by apply hex_char_not_sep in E.
Qed.

Lemma uuid_str_no_sep u : Py.contains "/" (uuid.str u) = false.
Proof.
  unfold uuid.str. by rewrite !contains_char_app, !hex_fixed_no_sep.
Qed.

Section Listed.

Variable TEMP_DIR : string.
Variable ext : Externals.

Lemma scratch_path_child n extension :
  Py.contains "/" extension = false ->
  os.child_name TEMP_DIR (scratch_path TEMP_DIR ext n extension)
  = Some (unique_id ext n +:+ extension).
Proof.
  intros He. rewrite scratch_path_inside. unfold os.child_name.
  rewrite strip_prefix_app.
  assert (Hsep : Py.contains "/" (unique_id ext n +:+ extension) = false).
  { unfold unique_id. by rewrite contains_char_app, uuid_str_no_sep, He. }
  assert (Hne : Py.truthy (unique_id ext n +:+ extension) = true).
  { unfold unique_id, uuid.str.
    change (uuid.hex_fixed 8 ?x)
      with (String (uuid.hex_char ((x / 16 ^ 7) mod 16)%N) (uuid.hex_fixed 7 x)).
    by rewrite !str_app_cons. }
  by rewrite Hsep, Hne.
Qed.

(** X7.  A path issued for an extension without a separator is a direct
    child of the scratch directory: it is one of the paths that the
    background task builds from [os.listdir] once a file exists there, and
    it ends with the extension. *)
Theorem issued_path_is_listed (extension : string) (w : World) :
  Py.contains "/" extension = false ->
  exists p w' a,
    create_temp_file TEMP_DIR ext extension w = (Ok p, w')
    /\ os.child_name TEMP_DIR p = Some a
    /\ os.path_join TEMP_DIR a = p
    /\ Py.endswith p extension = true.
Proof.
  intros He. eexists _, _, _. split; [apply create_temp_file_eq|].
  split; [by apply scratch_path_child|]. split.
  - apply child_name_join. by apply scratch_path_child.
  - apply endswith_iff. rewrite scratch_path_inside.
    exists (os.dir_prefix TEMP_DIR +:+ unique_id ext (draws w)).
    by rewrite str_app_assoc.
Qed.

(** X8.  A file written to an issued path and never released is deleted by
    the background task: when no entry of the directory is protected and
    the wall clock is set back by less than ten minutes in all during the
    first two sleeps, the file is gone after the third pass at the
    latest. *)
Theorem orphan_is_reclaimed (extension bytes : string) (w : World)
    (step0 step1 step2 : Z) :
  Py.contains "/" extension = false ->
  deletable w ->
  files w !! scratch_path TEMP_DIR ext (draws w) extension = None ->
  step0 + step1 > - timedelta_minutes 10 ->
  exists p w1 w2 w',
    create_temp_file TEMP_DIR ext extension w = (Ok p, w1)
    /\ write_file p bytes w1 = (Ok tt, w2)
    /\ os.path_exists p w2 = true
    /\ cleanup_temp_files TEMP_DIR [step0; step1; step2] w2 = Running w'
    /\ os.path_exists p w' = false.
Proof.
  intros He [Hd Hl] Hf Hsteps.
  set (p := scratch_path TEMP_DIR ext (draws w) extension) in *.
  set (w1 := add_issued p (set_draws (S (draws w)) w)).
  set (e := mkEntry true (now w) bytes false).
  set (w2 := set_files (insert p e) w1).
  assert (Hw2 : deletable w2).
  { split; [done|]. simpl. intros k e' Hk.
    apply lookup_insert_Some in Hk as [[_ <-]|[_ Hk]]; [done|]. eauto. }
  destruct (loop_deletable TEMP_DIR [step0; step1; step2] w2 Hw2)
    as (w' & Hrun & _ & Hdel).
  exists p, w1, w2, w'. split; [apply create_temp_file_eq|].
  split; [by apply write_file_fresh|]. split; [|split; [done|]].
  - unfold os.path_exists. simpl. rewrite Hd, lookup_insert_eq.
    apply bool_decide_eq_true_2. eauto.
  - unfold os.path_exists. rewrite (Hdel p e 2%nat).
    + destruct (scratch_dir w'); try done; apply bool_decide_eq_false_2; by intros [? ?].
    + simpl. lia.
    + simpl. apply lookup_insert_eq.
    + unfold p. rewrite scratch_path_child by done. eauto.
    + done.
    + unfold clock_after. simpl. unfold CLEANUP_INTERVAL, seconds, timedelta_minutes in *.
      lia.
Qed.

(** X6.  Each of the seven handlers that assign both paths first issues
    exactly two paths for an accepted upload, the input path and then the
    output path, on every route and before anything can fail; the random
    source is drawn twice. *)
Theorem accepted_request_issues_two_paths (ep : Endpoint) (r : Request) (w : World) :
  ep <> AdobeExtractText ->
  accepted ep r = true ->
  issued_by TEMP_DIR ext ep r w = plan TEMP_DIR ext (draws w) (extensions ep)
  /\ draws (snd (handle TEMP_DIR ext ep r w)) = S (S (draws w)).
Proof.
  intros Hep Ha. apply accepted_guards in Ha as (H1 & H2 & H3).
  assert (Hl : ledger (snd (handle TEMP_DIR ext ep r w))
               = (S (S (draws w)),
                  issued w ++ plan TEMP_DIR ext (draws w) (extensions ep))).
  { destruct ep; try done; unfold_handlers; rewrite H1, H2; simpl;
      try rewrite (H3 eq_refl); simpl;
      (apply two_paths_ledger; intros; solve [quiet_tac]). }
  unfold issued_by. injection Hl as Hd Hi. split; [|done].
  by rewrite Hi, drop_app_length.
Qed.

End Listed.

Lemma issued_path_is_listed_witness :
  exists p w' a,
    create_temp_file Scenario.tmp (Scenario.libs (Ok "")) ".pdf" Scenario.idle = (Ok p, w')
    /\ os.child_name Scenario.tmp p = Some a
    /\ os.path_join Scenario.tmp a = p
    /\ Py.endswith p ".pdf" = true.
Proof.
  apply (issued_path_is_listed Scenario.tmp (Scenario.libs (Ok "")) ".pdf" Scenario.idle).
  reflexivity.
Defined.

Lemma orphan_is_reclaimed_witness :
  exists p w1 w2 w',
    create_temp_file Scenario.tmp (Scenario.libs (Ok "")) ".pdf" Scenario.old_and_new
    = (Ok p, w1)
    /\ write_file p "%PDF-1.7" w1 = (Ok tt, w2)
    /\ os.path_exists p w2 = true
    /\ cleanup_temp_files Scenario.tmp [0; - timedelta_minutes 5; 0] w2 = Running w'
    /\ os.path_exists p w' = false.
Proof.
  apply (orphan_is_reclaimed Scenario.tmp (Scenario.libs (Ok "")) ".pdf" "%PDF-1.7"
           Scenario.old_and_new 0 (- timedelta_minutes 5) 0).
  - reflexivity.
  - exact old_and_new_deletable.
  - vm_compute. reflexivity.
  - vm_compute. reflexivity.
Defined.

(** When the clock is set back by one hour during the first sleep, as at
    the end of daylight-saving time, the file is still there after three
    passes. *)
Example orphan_survives_clock_set_back :
  let p := scratch_path Scenario.tmp (Scenario.libs (Ok "")) 0 ".pdf" in
  exists w1 w2 w',
    create_temp_file Scenario.tmp (Scenario.libs (Ok "")) ".pdf" Scenario.idle
    = (Ok p, w1)
    /\ write_file p "%PDF-1.7" w1 = (Ok tt, w2)
    /\ cleanup_temp_files Scenario.tmp [- timedelta_minutes 60; 0; 0] w2 = Running w'
    /\ os.path_exists p w' = true.
Proof.
  eexists _, _, _. split; [vm_compute; reflexivity|].
  split; [vm_compute; reflexivity|]. split; vm_compute; reflexivity.
Qed.

Lemma accepted_request_issues_two_paths_witness :
  issued_by Scenario.tmp Scenario.refusing LockPdf
    (Scenario.request Scenario.report "medium") Scenario.idle
  = plan Scenario.tmp Scenario.refusing (draws Scenario.idle) (extensions LockPdf)
  /\ draws (snd (handle Scenario.tmp Scenario.refusing LockPdf
                   (Scenario.request Scenario.report "medium") Scenario.idle))
     = S (S (draws Scenario.idle)).
Proof.
  apply (accepted_request_issues_two_paths Scenario.tmp Scenario.refusing LockPdf
           (Scenario.request Scenario.report "medium") Scenario.idle).
  - discriminate.
  - reflexivity.
Defined.
